(** * Flow++ training script ([train.py]): model and verified properties

    The script is glue around PyTorch: it parses options, builds a Flow++
    network and a frozen VAE, optionally resumes from a checkpoint, and then
    alternates one training pass and one evaluation pass per epoch.

    The embedding follows the script function by function.  Integers are [Z];
    the scalar floats the script only adds, divides and compares (losses,
    learning rates, the clipping threshold) are exact rationals [Q]; gradient
    entries are reals [R]; the entries of the image tensors are reals extended
    with the two infinities and NaN.  Python exceptions are an [error] value.  The file system is a
    finite map from literal path strings to nodes.  Everything the script
    imports from modules that are not part of [train.py] (the networks, the
    loss, the optimizer, the data loader) is a field of the [Framework]
    class. *)

From Stdlib Require Import ZArith QArith Qminmax Qreals Reals Lra Lia.
From Stdlib Require Import String Ascii List DecimalString DecimalZ.
From stdpp Require Import gmap strings.

Set Default Proof Using "Type".
Local Open Scope Z_scope.
Local Open Scope string_scope.

(** ** Python exceptions and the result of a fallible computation *)

Inductive error : Type :=
| AssertionError (msg : string)
| FileNotFoundError (path : string)
| FileExistsError (path : string)
| IsADirectoryError (path : string)
| UnpicklingError (path : string)
| KeyError (key : string)
| ZeroDivisionError
| ValueError (msg : string)
| TypeError (msg : string)
| RuntimeError (msg : string)
| UnboundLocalError (name : string).

Inductive result (A : Type) : Type :=
| OK (a : A)
| Raise (e : error).
Arguments OK {A} a.
Arguments Raise {A} e.

Definition bind {A B : Type} (r : result A) (k : A -> result B) : result B :=
  match r with
  | OK a => k a
  | Raise e => Raise e
  end.

Notation "'do' x <- r ; k" := (bind r (fun x => k))
  (at level 10, x pattern, r at level 100, k at level 200).

(** A [for] loop whose body may raise: the first exception ends the loop. *)
Fixpoint for_each {A B : Type} (xs : list B) (body : A -> B -> result A) (a : A)
    : result A :=
  match xs with
  | [] => OK a
  | x :: xs' => do a' <- body a x; for_each xs' body a'
  end.

(** ** Strings: [str.lower], [str.startswith], [str(int)], [os.path.join] *)

Module PyStr.

(** [str.lower] on one character: [A]..[Z] go to [a]..[z]. *)
Definition lower_ascii (c : ascii) : ascii :=
  let n := nat_of_ascii c in
  if ((65 <=? n)%nat && (n <=? 90)%nat)%bool then ascii_of_nat (n + 32) else c.

Fixpoint lower (s : string) : string :=
  match s with
  | EmptyString => EmptyString
  | String c r => String (lower_ascii c) (lower r)
  end.

Definition startswith (s p : string) : bool := String.prefix p s.

(** [str(n)] for a Python int: decimal digits, a leading [-] when negative. *)
Definition str (n : Z) : string := NilZero.string_of_int (Z.to_int n).

(** [os.path.join(a, b)] for a relative [b]. *)
Definition ends_with_slash (a : string) : bool :=
  match String.rev a with
  | String c _ => if Ascii.eqb c "/" then true else false
  | EmptyString => false
  end.

Definition path_join (a b : string) : string :=
  if String.eqb a "" then b
  else if ends_with_slash a then a ++ b
  else a ++ "/" ++ b.

Fixpoint last_char (s : string) : option ascii :=
  match s with
  | EmptyString => None
  | String c EmptyString => Some c
  | String _ r => last_char r
  end.

End PyStr.

(** ** Option parsing: [str2bool] *)

(** [def str2bool(s): return s.lower().startswith('t')] *)
Definition str2bool (s : string) : bool :=
  PyStr.startswith (PyStr.lower s) "t".

(** [argparse] applies [type=str2bool] to the string given on the command line
    and uses [default] as it is when the option is absent. *)
Definition parse_flag (default : bool) (given : option string) : bool :=
  match given with
  | Some s => str2bool s
  | None => default
  end.

Definition parse_benchmark : option string -> bool := parse_flag true.
Definition parse_resume : option string -> bool := parse_flag false.
Definition parse_use_attn : option string -> bool := parse_flag true.

(** ** Command-line options *)

(** The namespace [argparse] returns; one field per [add_argument]. *)
Record Args : Type := {
  batch_size : Z;
  benchmark : bool;
  gpu_ids : list Z;
  lr : Q;
  max_grad_norm : Q;
  drop_prob : Q;
  num_blocks : Z;
  num_components : Z;
  num_dequant_blocks : Z;
  num_channels : Z;
  num_epochs : Z;
  num_samples : Z;
  num_workers : Z;
  resume : bool;
  seed : Z;
  save_dir : string;
  use_attn : bool;
  warm_up : Z;
  weight_decay : Q;
  vae_model_path : string;
  vae_optim_path : string
}.

(** The [default=] values of the parser. *)
Definition default_args : Args := {|
  batch_size := 4;
  benchmark := true;
  gpu_ids := [0];
  lr := 1 # 1000;
  max_grad_norm := 1;
  drop_prob := 2 # 10;
  num_blocks := 5;
  num_components := 32;
  num_dequant_blocks := 2;
  num_channels := 96;
  num_epochs := 100;
  num_samples := 64;
  num_workers := 4;
  resume := false;
  seed := 0;
  save_dir := "samples";
  use_attn := true;
  warm_up := 200;
  weight_decay := 5 # 100000;
  vae_model_path := "vae_ckpts/vae_n_decoder_n_latent_cifar_model_0501.pt";
  vae_optim_path := "vae_n_decoder_n_latent_cifar_optim_0501.pt"
|}.

Definition set_batch_size (b : Z) (a : Args) : Args := {|
  batch_size := b;
  benchmark := benchmark a; gpu_ids := gpu_ids a; lr := lr a;
  max_grad_norm := max_grad_norm a; drop_prob := drop_prob a;
  num_blocks := num_blocks a; num_components := num_components a;
  num_dequant_blocks := num_dequant_blocks a; num_channels := num_channels a;
  num_epochs := num_epochs a; num_samples := num_samples a;
  num_workers := num_workers a; resume := resume a; seed := seed a;
  save_dir := save_dir a; use_attn := use_attn a; warm_up := warm_up a;
  weight_decay := weight_decay a; vae_model_path := vae_model_path a;
  vae_optim_path := vae_optim_path a
|}.

(** [args.batch_size *= max(1, len(args.gpu_ids))] *)
Definition scale_batch_size (a : Args) : Args :=
  set_batch_size (batch_size a * Z.max 1 (Z.of_nat (length (gpu_ids a)))) a.

(** ** The warmup schedule *)

Definition Qltb (x y : Q) : bool := negb (Qle_bool y x).

(** Python's [min(a, b)] on two numbers: [b] when [b < a], else [a]. *)
Definition py_min (a b : Q) : Q := if Qltb b a then b else a.

(** [lambda s: min(1., s / warm_up)], where [warm_up] is the local variable
    of [main], not the option.  [/] on two ints is true division and raises
    on a zero divisor. *)
Definition lr_lambda (warm_up s : Z) : result Q :=
  if (warm_up =? 0)%Z then Raise ZeroDivisionError
  else OK (py_min 1 (inject_Z s / inject_Z warm_up)).

(** [warm_up = args.warm_up * args.batch_size], on the scaled batch size. *)
Definition local_warm_up (a : Args) : Z :=
  warm_up (scale_batch_size a) * batch_size (scale_batch_size a).

(** The schedule [main] builds from the options. *)
Definition schedule (a : Args) (s : Z) : result Q := lr_lambda (local_warm_up a) s.

(** ** Running average *)

(** Modelled from the spec: [util.AverageMeter] is not part of [train.py].
    The spec describes it as accumulating (sum, count) and reporting the
    weighted mean of the per-batch values seen since the last reset. *)
Record AverageMeter : Type := { avg : Q; sum : Q; count : Z }.

Definition meter_reset : AverageMeter := {| avg := 0; sum := 0; count := 0 |}.

Definition meter_update (m : AverageMeter) (val : Q) (n : Z) : AverageMeter :=
  let sum' := (sum m + val * inject_Z n)%Q in
  let count' := count m + n in
  {| avg := (sum' / inject_Z count')%Q; sum := sum'; count := count' |}.

(** ** Squashing and clipping on tensor entries *)

(** An entry of an image tensor: a real number, an infinity or NaN. *)
Inductive tval : Type :=
| Real (r : R)
| PosInf
| NegInf
| NaN.

(** The logistic function on the reals. *)
Definition sigmoid_real (x : R) : R := (1 / (1 + exp (- x)))%R.

(** [torch.sigmoid] on one entry: the limits at the infinities, and NaN for
    NaN. *)
Definition sigmoid (v : tval) : tval :=
  match v with
  | Real x => Real (sigmoid_real x)
  | PosInf => Real 1
  | NegInf => Real 0
  | NaN => NaN
  end.

(** The entry is a pixel value in the interval [0, 1]. *)
Definition in_unit (v : tval) : Prop :=
  match v with
  | Real x => (0 <= x <= 1)%R
  | _ => False
  end.

(** The global gradient norm: the 2-norm of all gradient entries together. *)
Definition sum_squares (g : list R) : R := fold_right (fun x acc => (x * x + acc)%R) 0%R g.
Definition grad_norm (g : list R) : R := sqrt (sum_squares g).

(** Modelled from the spec: [util.clip_grad_norm] is not part of [train.py].
    The spec says that clipping with threshold T > 0 never leaves the global
    gradient norm above T; the model rescales the gradients onto norm T when
    their norm is larger and leaves them alone otherwise. *)
Definition clip_grad_norm (max_norm : R) (g : list R) : list R :=
  if Rle_dec (grad_norm g) max_norm then g
  else map (fun x => (max_norm / grad_norm g * x)%R) g.

(** Lines 119-120 of [train]: the gradients that reach [optimizer.step()]. *)
Definition clipped_grads (max_grad_norm : Q) (g : list R) : list R :=
  if Qltb 0 max_grad_norm then clip_grad_norm (Q2R max_grad_norm) g else g.

(** ** Data loader batches *)

Fixpoint batches_fuel {A : Type} (fuel n : nat) (l : list A) : list (list A) :=
  match fuel with
  | O => []
  | S fuel' =>
      match l with
      | [] => []
      | _ => firstn n l :: batches_fuel fuel' n (skipn n l)
      end
  end.

(** [DataLoader(dataset, batch_size=n)] with the default [drop_last=False]:
    consecutive batches of [n] items, the last one possibly shorter. *)
Definition batches {A : Type} (n : nat) (l : list A) : list (list A) :=
  batches_fuel (length l) n l.

(** [x.size(0)] *)
Definition size0 {A : Type} (x : list A) : Z := Z.of_nat (length x).

(** ** The imported modules *)

(** What [train.py] uses from [torch], [torchvision], [models], [util] and
    [vae_n_d_n_l].  Random draws take and return the generator state. *)
Class Framework : Type := {
  Net : Type;      (* parameters of the flow, [net.state_dict()] *)
  Vae : Type;      (* parameters of the frozen VAE *)
  Opt : Type;      (* Adam's moment estimates *)
  Rng : Type;      (* state of the seeded generators *)
  Image : Type;    (* one 3 x 32 x 32 item of a batch *)
  manual_seed : Z -> Rng;
  trainset : list Image;
  testset : list Image;
  (* one shuffled, augmented pass of the training loader *)
  shuffle : Rng -> list Image -> list Image * Rng;
  shuffle_length : forall r l, length (fst (shuffle r l)) = length l;
  FlowPlusPlus : Args -> Rng -> Net * Rng;
  (* [util.get_param_groups] and [optim.Adam]: weight decay, peak rate *)
  Adam : Net -> Q -> Q -> Opt;
  (* forward pass, loss and [loss.backward()]: [loss.item()], the gradients *)
  forward_backward : Rng -> Net -> Vae -> list Image -> Q * list R * Rng;
  (* [optimizer.step()] at the current learning rate *)
  optimizer_step : Opt -> Q -> Net -> list R -> Opt * Net;
  (* forward pass and loss in evaluation mode *)
  eval_loss : Rng -> Net -> Vae -> list Image -> Q * Rng;
  (* [net(z, reverse=True)]: the entries of the returned tensor *)
  net_reverse : Net -> list Image -> list tval;
  (* lines 134-145 of [sample]: prior draw, decoder, draw of the latent image *)
  vae_prior_sample : Rng -> Vae -> Z -> list Image * Rng;
  make_grid : list tval -> Z -> list tval
}.

Section Script.
Context {F : Framework}.

(** *** File system *)

(** The dict [test] hands to [torch.save]. *)
Record checkpoint : Type := {
  ck_net : Net;
  ck_test_loss : Q;
  ck_epoch : Z
}.

Inductive node : Type :=
| Dir
| CkptFile (c : checkpoint)
| VaeFile (v : Vae)
| ImageFile (pixels : list tval).

(** Paths are literal strings: no normalisation, no links. *)
Abbreviation fsys := (gmap string node).

Definition isdir (fs : fsys) (p : string) : bool :=
  match fs !! p with
  | Some Dir => true
  | _ => false
  end.

(** The proper prefixes of a path that end just before a [/]. *)
Fixpoint dir_prefixes (acc p : string) : list string :=
  match p with
  | EmptyString => []
  | String c r =>
      (if (Ascii.eqb c "/" && negb (String.eqb acc ""))%bool then [acc] else [])
        ++ dir_prefixes (acc ++ String c EmptyString) r
  end.

Definition mkdir_exist_ok (p : string) (fs : fsys) : result fsys :=
  match fs !! p with
  | Some Dir => OK fs
  | Some _ => Raise (FileExistsError p)
  | None => OK (<[p := Dir]> fs)
  end.

(** [os.makedirs(p, exist_ok=True)] *)
Definition makedirs (p : string) (fs : fsys) : result fsys :=
  if String.eqb p "" then Raise (FileNotFoundError p)
  else for_each (dir_prefixes "" p ++ [p])
                (fun fs' q => mkdir_exist_ok q fs') fs.

(** Opening [p] for writing and storing [n]: replaces a file, not a directory. *)
Definition write_file (p : string) (n : node) (fs : fsys) : result fsys :=
  match fs !! p with
  | Some Dir => Raise (IsADirectoryError p)
  | _ => OK (<[p := n]> fs)
  end.

Definition torch_save (c : checkpoint) (p : string) : fsys -> result fsys :=
  write_file p (CkptFile c).

Definition save_image (pixels : list tval) (p : string) : fsys -> result fsys :=
  write_file p (ImageFile pixels).

(** [torch.load(p)] *)
Definition torch_load (p : string) (fs : fsys) : result node :=
  match fs !! p with
  | None => Raise (FileNotFoundError p)
  | Some Dir => Raise (IsADirectoryError p)
  | Some (ImageFile _) => Raise (UnpicklingError p)
  | Some n => OK n
  end.

(** [f'] has every entry of [f], and nothing more than new directories. *)
Definition grows (f f' : fsys) : Prop :=
  forall q, f' !! q = f !! q \/ (f !! q = None /\ f' !! q = Some Dir).

(** ['ckpts/flow++_' + str(epoch) + 'vae(n_d_n_l_64).pth.tar'] *)
Definition ckpt_path (epoch : Z) : string :=
  "ckpts/flow++_" ++ PyStr.str epoch ++ "vae(n_d_n_l_64).pth.tar".

Definition resume_path : string := "save/best.pth.tar".

(** ['samples/reconstruction_epoch_{}.png'.format(epoch)] *)
Definition reconstruction_path (epoch : Z) : string :=
  "samples/reconstruction_epoch_" ++ PyStr.str epoch ++ ".png".

(** [os.path.join(save_dir, 'epoch_{}.png'.format(epoch))] *)
Definition samples_path (save_dir : string) (epoch : Z) : string :=
  PyStr.path_join save_dir ("epoch_" ++ PyStr.str epoch ++ ".png").

(** *** State *)

(** What outlives a call of [train] or [test]: the files and the two
    module-level globals. *)
Record env : Type := {
  fs : gmap string node;
  best_loss : Q;
  global_step : Z
}.

(** The objects [main] creates and passes around. *)
Record session : Type := {
  rng : Rng;
  net : Net;
  opt : Opt;
  opt_lr : Q     (* [optimizer.param_groups[0]['lr']] *)
}.

(** [sched.LambdaLR(optimizer, lambda s: min(1., s / warm_up))] *)
Record LambdaLR : Type := {
  base_lr : Q;
  sched_warm_up : Z
}.

(** [scheduler.step(s)]: the rate becomes the base rate times the multiplier. *)
Definition scheduler_step (sc : LambdaLR) (s : Z) : result Q :=
  do m <- lr_lambda (sched_warm_up sc) s;
  OK (base_lr sc * m)%Q.

(** [best_loss = 0] and [global_step = 0] of the [__main__] block. *)
Definition initial_env (files : gmap string node) : env :=
  {| fs := files; best_loss := 0; global_step := 0 |}.

(** *** [train] *)

(** One iteration of the loop over [trainloader] (lines 106-128). *)
Definition train_step (vae : Vae) (sc : LambdaLR) (max_grad_norm : Q)
    (st : env * session * AverageMeter) (x : list Image)
    : result (env * session * AverageMeter) :=
  let '(e, s, loss_meter) := st in
  let '(loss, grads, r) := forward_backward (rng s) (net s) vae x in
  let loss_meter := meter_update loss_meter loss (size0 x) in
  let grads := clipped_grads max_grad_norm grads in
  let '(o, n) := optimizer_step (opt s) (opt_lr s) (net s) grads in
  do rate <- scheduler_step sc (global_step e);
  OK ({| fs := fs e; best_loss := best_loss e;
         global_step := global_step e + size0 x |},
      {| rng := r; net := n; opt := o; opt_lr := rate |},
      loss_meter).

Definition train_loop (vae : Vae) (sc : LambdaLR) (max_grad_norm : Q)
    (xs : list (list Image)) (st : env * session * AverageMeter)
    : result (env * session * AverageMeter) :=
  for_each xs (train_step vae sc max_grad_norm) st.

Definition train (epoch : Z) (vae : Vae) (batch : nat) (sc : LambdaLR)
    (max_grad_norm : Q) (st : env * session) : result (env * session) :=
  let '(e, s) := st in
  let '(data, r) := shuffle (rng s) trainset in
  let s := {| rng := r; net := net s; opt := opt s; opt_lr := opt_lr s |} in
  do (e, s, _) <- train_loop vae sc max_grad_norm (batches batch data)
                              (e, s, meter_reset);
  OK (e, s).

(** *** [sample] *)

Definition sample (n : Net) (vae : Vae) (batch : Z) (r : Rng)
    : list tval * Rng :=
  let '(z, r) := vae_prior_sample r vae batch in
  let x := net_reverse n z in
  (map sigmoid x, r).

(** *** [test] *)

(** Lines 173-174: the flow's inverse on the last batch, then the sigmoid. *)
Definition reconstruct (n : Net) (x : list Image) : list tval :=
  let x_ := net_reverse n x in
  map sigmoid x_.

(** The loop over [testloader] (lines 158-171): the meter and the generator. *)
Definition test_loop (n : Net) (vae : Vae) (xs : list (list Image)) (r : Rng)
    : AverageMeter * Rng :=
  fold_left (fun '(m, r) x =>
               let '(loss, r) := eval_loss r n vae x in
               (meter_update m loss (size0 x), r))
            xs (meter_reset, r).

(** Lines 179-180: the value of [best_loss] after the comparison. *)
Definition improved (avg_loss best : Q) : bool := Qltb avg_loss best.

Definition update_best (avg_loss best : Q) : Q :=
  if improved avg_loss best then avg_loss else best.

(** [int(num_samples ** 0.5)]: a negative base gives a complex number,
    which [int] refuses. *)
Definition grid_rows (num_samples : Z) : result Z :=
  if (num_samples <? 0)%Z then Raise (TypeError "int() argument is complex")
  else OK (Z.sqrt num_samples).

Definition test (epoch : Z) (vae : Vae) (batch : nat) (num_samples : Z)
    (save_dir : string) (st : env * session) : result (env * session) :=
  let '(e, s) := st in
  let xs := batches batch testset in
  let '(loss_meter, r) := test_loop (net s) vae xs (rng s) in
  do x <- match last xs with
          | Some x => OK x
          | None => Raise (UnboundLocalError "x")
          end;
  let reconstruction_images := reconstruct (net s) x in
  let best := update_best (avg loss_meter) (best_loss e) in
  let state := {| ck_net := net s; ck_test_loss := avg loss_meter;
                  ck_epoch := epoch |} in
  do f <- makedirs "ckpts" (fs e);
  do f <- torch_save state (ckpt_path epoch) f;
  do f <- makedirs "samples" f;
  do nrow <- grid_rows num_samples;
  do f <- save_image (make_grid reconstruction_images nrow)
                     (reconstruction_path epoch) f;
  let '(images, r) := sample (net s) vae num_samples r in
  do f <- makedirs save_dir f;
  do nrow <- grid_rows num_samples;
  do f <- save_image (make_grid images nrow) (samples_path save_dir epoch) f;
  OK ({| fs := f; best_loss := best; global_step := global_step e |},
      {| rng := r; net := net s; opt := opt s; opt_lr := opt_lr s |}).

(** *** [main] *)

(** Lines 25-71: seeds, loaders, the frozen VAE and a fresh flow. The data
    sets are taken as present under [data/]. [np.random.seed] accepts seeds
    from 0 to 2**32 - 1 only; [DataLoader] checks the number of workers and
    then, when it builds its batch sampler, the batch size. *)
Definition main_build (args : Args) (e : env) : result (Args * Vae * Net * Rng) :=
  let args := scale_batch_size args in
  if ((seed args <? 0) || (2 ^ 32 <=? seed args))%Z
  then Raise (ValueError "Seed must be between 0 and 2**32 - 1")
  else
    let r := manual_seed (seed args) in
    if (num_workers args <? 0)%Z
    then Raise (ValueError "num_workers option should be non-negative")
    else if (batch_size args <=? 0)%Z
    then Raise (ValueError "batch_size should be a positive integer value")
    else
      do v <- torch_load (vae_model_path args) (fs e);
      do vae <- match v with
                | VaeFile vae => OK vae
                | _ => Raise (RuntimeError "Error(s) in loading state_dict for VAE")
                end;
      let '(n, r) := FlowPlusPlus args r in
      OK (args, vae, n, r).

(** Lines 73-84: the start epoch, and on resume the restored globals. *)
Definition main_resume (args : Args) (e : env) (n : Net) : result (env * Net * Z) :=
  if resume args then
    if isdir (fs e) "save" then
      do c <- torch_load resume_path (fs e);
      do checkpoint <- match c with
                       | CkptFile checkpoint => OK checkpoint
                       | _ => Raise (KeyError "net")
                       end;
      let start_epoch := ck_epoch checkpoint in
      OK ({| fs := fs e;
             best_loss := ck_test_loss checkpoint;
             global_step := start_epoch * Z.of_nat (length trainset) |},
          ck_net checkpoint, start_epoch)
    else Raise (AssertionError "Error: no checkpoint directory found!")
  else OK (e, n, 0).

(** Lines 86-90: the optimizer and the scheduler. [optim.Adam] refuses a
    negative learning rate; building a [LambdaLR] evaluates the multiplier
    once, at step 0. *)
Definition main_optim (args : Args) (n : Net) : result (LambdaLR * Opt * Q) :=
  if Qltb (lr args) 0 then Raise (ValueError "Invalid learning rate")
  else
    let optimizer := Adam n (weight_decay args) (lr args) in
    let warm_up := warm_up args * batch_size args in
    let sc := {| base_lr := lr args; sched_warm_up := warm_up |} in
    do rate <- scheduler_step sc 0;
    OK (sc, optimizer, rate).

(** [range(start_epoch, start_epoch + num_epochs)] *)
Definition epoch_range (start_epoch num_epochs : Z) : list Z :=
  map (fun i => start_epoch + Z.of_nat i) (seq 0 (Z.to_nat num_epochs)).

Definition run_epoch (args : Args) (vae : Vae) (sc : LambdaLR)
    (st : env * session) (epoch : Z) : result (env * session) :=
  do st <- train epoch vae (Z.to_nat (batch_size args)) sc (max_grad_norm args) st;
  test epoch vae (Z.to_nat (batch_size args)) (num_samples args) (save_dir args) st.

(** Lines 92-95. *)
Definition run_epochs (args : Args) (vae : Vae) (sc : LambdaLR)
    (epochs : list Z) (st : env * session) : result (env * session) :=
  for_each epochs (run_epoch args vae sc) st.

Definition main (args : Args) (e : env) : result (env * session) :=
  do (args, vae, n, r) <- main_build args e;
  do (e, n, start_epoch) <- main_resume args e n;
  do (sc, optimizer, rate) <- main_optim args n;
  run_epochs args vae sc (epoch_range start_epoch (num_epochs args))
             (e, {| rng := r; net := n; opt := optimizer; opt_lr := rate |}).

End Script.

Abbreviation fsys := (gmap string node).

(** ** A small instance of the imported modules

    Used to run the script on concrete inputs: the flow's parameters are a
    counter of optimizer steps, the evaluation loss falls by one per step,
    and the tensors are empty. *)

Module Toy.

Definition framework : Framework := {|
  Net := Z; Vae := unit; Opt := nat; Rng := Z; Image := Z;
  manual_seed := fun seed => seed;
  trainset := [1; 2; 3; 4; 5];
  testset := [6; 7; 8];
  shuffle := fun r l => (rev l, r + 1);
  shuffle_length := fun _ l => length_rev l;
  FlowPlusPlus := fun _ r => (0, r + 1);
  Adam := fun _ _ _ => O;
  forward_backward := fun r n _ x => (inject_Z n, [], r + 1);
  optimizer_step := fun o _ n _ => (S o, n + 1);
  eval_loss := fun r n _ x => ((3 - inject_Z n)%Q, r);
  net_reverse := fun _ _ => [];
  vae_prior_sample := fun r _ _ => ([], r + 1);
  make_grid := fun px _ => px
|}.

(** Options of a short run: batches of two, two epochs, no clipping. *)
Definition args : Args := {|
  batch_size := 2; benchmark := true; gpu_ids := [0]; lr := 1 # 1000;
  max_grad_norm := 0; drop_prob := 2 # 10; num_blocks := 5;
  num_components := 32; num_dequant_blocks := 2; num_channels := 96;
  num_epochs := 2; num_samples := 4; num_workers := 4; resume := false;
  seed := 0; save_dir := "samples"; use_attn := true; warm_up := 3;
  weight_decay := 5 # 100000; vae_model_path := "vae.pt";
  vae_optim_path := "vae_optim.pt"
|}.

Definition resume_args : Args := {|
  batch_size := 2; benchmark := true; gpu_ids := [0]; lr := 1 # 1000;
  max_grad_norm := 0; drop_prob := 2 # 10; num_blocks := 5;
  num_components := 32; num_dequant_blocks := 2; num_channels := 96;
  num_epochs := 2; num_samples := 4; num_workers := 4; resume := true;
  seed := 0; save_dir := "samples"; use_attn := true; warm_up := 3;
  weight_decay := 5 # 100000; vae_model_path := "vae.pt";
  vae_optim_path := "vae_optim.pt"
|}.

Definition saved : @checkpoint framework :=
  @Build_checkpoint framework 40 (-37)%Q 7.

(** Only the VAE weights are on disk. *)
Definition fresh_files : gmap string (@node framework) :=
  {[ "vae.pt" := @VaeFile framework tt ]}.

(** The VAE weights and a checkpoint under [save/]. *)
Definition resume_files : gmap string (@node framework) :=
  <[ "save/best.pth.tar" := @CkptFile framework saved ]>
    (<[ "save" := @Dir framework ]> fresh_files).

(** The objects of [main] right after the flow was built. *)
Definition session0 : @session framework :=
  @Build_session framework 1 0 O (0 # 1).

Definition sched : LambdaLR :=
  {| base_lr := 1 # 1000; sched_warm_up := 6 |}.

End Toy.

(** ** Options of runs that stop at the scheduler *)

Module ToyEdge.

(** [--warm_up 0]. *)
Definition zero_warm_up : Args := {|
  batch_size := 2; benchmark := true; gpu_ids := [0]; lr := 1 # 1000;
  max_grad_norm := 0; drop_prob := 2 # 10; num_blocks := 5;
  num_components := 32; num_dequant_blocks := 2; num_channels := 96;
  num_epochs := 2; num_samples := 4; num_workers := 4; resume := false;
  seed := 0; save_dir := "samples"; use_attn := true; warm_up := 0;
  weight_decay := 5 # 100000; vae_model_path := "vae.pt";
  vae_optim_path := "vae_optim.pt"
|}.

(** [--warm_up -3]. *)
Definition negative_warm_up : Args := {|
  batch_size := 2; benchmark := true; gpu_ids := [0]; lr := 1 # 1000;
  max_grad_norm := 0; drop_prob := 2 # 10; num_blocks := 5;
  num_components := 32; num_dequant_blocks := 2; num_channels := 96;
  num_epochs := 2; num_samples := 4; num_workers := 4; resume := false;
  seed := 0; save_dir := "samples"; use_attn := true; warm_up := -3;
  weight_decay := 5 # 100000; vae_model_path := "vae.pt";
  vae_optim_path := "vae_optim.pt"
|}.

(** A [save] directory without a checkpoint in it. *)
Definition empty_save_files : gmap string (@node Toy.framework) :=
  <[ "save" := @Dir Toy.framework ]> Toy.fresh_files.

End ToyEdge.

(** ** An instance whose flow returns NaN

    As [Toy.framework], except that the flow's inverse returns one NaN entry,
    as a flow with a NaN parameter does. *)

Module ToyNaN.

Definition framework : Framework := {|
  Net := Z; Vae := unit; Opt := nat; Rng := Z; Image := Z;
  manual_seed := fun seed => seed;
  trainset := [1; 2; 3; 4; 5];
  testset := [6; 7; 8];
  shuffle := fun r l => (rev l, r + 1);
  shuffle_length := fun _ l => length_rev l;
  FlowPlusPlus := fun _ r => (0, r + 1);
  Adam := fun _ _ _ => O;
  forward_backward := fun r n _ x => (inject_Z n, [], r + 1);
  optimizer_step := fun o _ n _ => (S o, n + 1);
  eval_loss := fun r n _ x => ((3 - inject_Z n)%Q, r);
  net_reverse := fun _ _ => [NaN];
  vae_prior_sample := fun r _ _ => ([], r + 1);
  make_grid := fun px _ => px
|}.

End ToyNaN.

(** ** Characters of a path *)

(** Whether the character [c] occurs in [s]. *)
Fixpoint has_char (c : ascii) (s : string) : bool :=
  match s with
  | EmptyString => false
  | String a r => (Ascii.eqb a c || has_char c r)%bool
  end.

(** * Properties *)

Lemma bind_OK {A B : Type} (r : result A) (k : A -> result B) (b : B) :
  bind r k = OK b -> exists a, r = OK a /\ k a = OK b.
Proof. destruct r as [a|e]; simpl; [eauto | discriminate]. Qed.

Tactic Notation "inv_bind" hyp(H) "as" ident(a) ident(Ha) :=
  apply bind_OK in H as (a & Ha & H).

Lemma for_each_app {A B : Type} (l1 l2 : list B) (body : A -> B -> result A)
    (a : A) :
  for_each (l1 ++ l2) body a = (do a1 <- for_each l1 body a; for_each l2 body a1).
Proof.
  revert a. induction l1 as [|x l1 IH]; intros a; [reflexivity|].
  simpl. destruct (body a x) as [a1|err]; [apply IH | reflexivity].
Qed.

(** A reflexive, transitive relation kept by every iteration that returns is
    kept by the loop. *)
Lemma for_each_rel {A B : Type} (Rel : A -> A -> Prop) (l : list B)
    (body : A -> B -> result A) :
  (forall a, Rel a a) ->
  (forall a b c, Rel a b -> Rel b c -> Rel a c) ->
  (forall a x a', In x l -> body a x = OK a' -> Rel a a') ->
  forall a a', for_each l body a = OK a' -> Rel a a'.
Proof.
  intros Hrefl Htrans. induction l as [|x l IH]; intros Hbody a a' H.
  - injection H as <-. apply Hrefl.
  - simpl in H. inv_bind H as a1 H1.
    apply (Htrans a a1 a').
    + apply (Hbody a x a1); [now left | exact H1].
    + apply IH; [|exact H]. intros b y b' Hy. apply Hbody. now right.
Qed.

Lemma Qltb_lt (x y : Q) : Qltb x y = true <-> (x < y)%Q.
Proof.
  unfold Qltb. rewrite negb_true_iff. split.
  - intros H. apply Qnot_le_lt. intros Hle.
    apply Qle_bool_iff in Hle. congruence.
  - intros H. destruct (Qle_bool y x) eqn:E; [|reflexivity].
    apply Qle_bool_iff in E. exfalso. exact (Qlt_not_le _ _ H E).
Qed.

Lemma Qltb_ge (x y : Q) : Qltb x y = false <-> (y <= x)%Q.
Proof.
  unfold Qltb. rewrite negb_false_iff. apply Qle_bool_iff.
Qed.

(** ** Option parsing *)

Lemma lower_ascii_t (c : ascii) :
  PyStr.lower_ascii c = "t"%char <-> c = "t"%char \/ c = "T"%char.
Proof.
  split.
  - destruct c as [[] [] [] [] [] [] [] []]; vm_compute; intros H;
      first [discriminate H | now left | now right].
  - intros [->| ->]; reflexivity.
Qed.

Lemma str2bool_true_iff (s : string) :
  str2bool s = true <->
  exists rest, s = String "t" rest \/ s = String "T" rest.
Proof.
  unfold str2bool, PyStr.startswith. destruct s as [|c r].
  - split; [discriminate | intros [rest [H|H]]; discriminate H].
  - change (String.prefix "t" (PyStr.lower (String c r)))
      with (if Ascii.ascii_dec "t" (PyStr.lower_ascii c)
            then String.prefix "" (PyStr.lower r) else false).
    destruct (Ascii.ascii_dec "t" (PyStr.lower_ascii c)) as [e|ne].
    + symmetry in e. apply lower_ascii_t in e.
      assert (Hp : String.prefix "" (PyStr.lower r) = true)
        by (destruct (PyStr.lower r); reflexivity).
      split; [intros _ | intros _; exact Hp].
      exists r. destruct e as [->| ->]; [now left | now right].
    + split; [discriminate |].
      intros [rest [H|H]]; inversion H; subst; exfalso; apply ne; reflexivity.
Qed.

(** C10. Each boolean option ([--benchmark], [--resume], [--use_attn]) is
    parsed by [str2bool]: the parsed value is [true] exactly when the argument
    string starts with [t] or [T]; every other string, such as [yes], [1] or
    the empty string, gives [false], and no string raises. *)
Theorem C10_bool_options_parse (s : string) :
  let starts_with_t := exists rest, s = String "t" rest \/ s = String "T" rest in
  (parse_benchmark (Some s) = true <-> starts_with_t) /\
  (parse_resume (Some s) = true <-> starts_with_t) /\
  (parse_use_attn (Some s) = true <-> starts_with_t) /\
  str2bool "yes" = false /\ str2bool "1" = false /\ str2bool "" = false /\
  str2bool "True" = true /\ str2bool "tru" = true.
Proof.
  simpl. repeat split; try reflexivity; try apply str2bool_true_iff.
Qed.

(** ** The warmup schedule *)

Lemma ratio_lt_1 (s w : Z) : 0 < w -> ((inject_Z s / inject_Z w < 1)%Q <-> s < w).
Proof.
  intros Hw. destruct w as [|p|p]; try lia.
  unfold Qlt, Qdiv, Qmult, Qinv, inject_Z. simpl. lia.
Qed.

Lemma lr_lambda_ramp (w s : Z) :
  0 < w ->
  lr_lambda w s = OK (if (s <? w)%Z then (inject_Z s / inject_Z w)%Q else 1%Q).
Proof.
  intros Hw. unfold lr_lambda, py_min.
  destruct (Z.eqb_spec w 0) as [->|_]; [lia|]. f_equal.
  destruct (Z.ltb_spec s w) as [Hlt|Hge].
  - apply (ratio_lt_1 s w Hw) in Hlt. apply Qltb_lt in Hlt. now rewrite Hlt.
  - destruct (Qltb (inject_Z s / inject_Z w) 1) eqn:E; [|reflexivity].
    apply Qltb_lt, (ratio_lt_1 s w Hw) in E. lia.
Qed.

Lemma local_warm_up_eq (a : Args) :
  local_warm_up a =
  warm_up a * (batch_size a * Z.max 1 (Z.of_nat (length (gpu_ids a)))).
Proof. reflexivity. Qed.




(** The argument of the schedule counts samples, not batches: at the default
    options 200 samples are 50 batches of 4, a quarter of the 200 warmup
    batches, and the multiplier there is 200/800. *)
Lemma schedule_counts_samples :
  schedule default_args 200 = OK (inject_Z 200 / inject_Z 800)%Q /\
  schedule default_args (200 * 4) = OK 1%Q.
Proof. split; reflexivity. Qed.

(** ** Paths *)

Lemma length_app_string (a b : string) :
  String.length (a ++ b) = (String.length a + String.length b)%nat.
Proof. induction a as [|c a IH]; simpl; [reflexivity | now rewrite IH]. Qed.

Lemma last_char_app (a b : string) :
  b <> "" -> PyStr.last_char (a ++ b) = PyStr.last_char b.
Proof.
  intros Hb. induction a as [|c a IH]; [reflexivity|].
  change (String c a ++ b) with (String c (a ++ b)).
  simpl. rewrite IH. destruct (a ++ b) eqn:E; [|reflexivity].
  destruct a; simpl in E; [contradiction | discriminate].
Qed.

Lemma app_nonempty (a b : string) : b <> "" -> a ++ b <> "".
Proof.
  intros Hb H. apply (f_equal String.length) in H.
  rewrite length_app_string in H. destruct b; [contradiction|].
  simpl in H. lia.
Qed.

Lemma to_int_not_nil (n : Z) :
  Z.to_int n <> Decimal.Pos Decimal.Nil /\ Z.to_int n <> Decimal.Neg Decimal.Nil.
Proof.
  split; intros H; pose proof (f_equal Z.of_int H) as H';
    rewrite DecimalZ.of_to in H'; simpl in H'; subst n;
    vm_compute in H; discriminate H.
Qed.

Lemma str_inj (x y : Z) : PyStr.str x = PyStr.str y -> x = y.
Proof.
  unfold PyStr.str. intros H.
  apply (f_equal NilZero.int_of_string) in H.
  destruct (to_int_not_nil x) as [Hx1 Hx2], (to_int_not_nil y) as [Hy1 Hy2].
  rewrite !NilZero.isi in H by assumption.
  apply DecimalZ.to_int_inj. congruence.
Qed.

Lemma app_inv_tail_string (t a b : string) : a ++ t = b ++ t -> a = b.
Proof.
  revert b. induction a as [|c a IH]; intros [|d b] H; [reflexivity| | |].
  - exfalso. apply (f_equal String.length) in H.
    rewrite !length_app_string in H. simpl in H. lia.
  - exfalso. apply (f_equal String.length) in H.
    rewrite !length_app_string in H. simpl in H. lia.
  - change (String c (a ++ t) = String d (b ++ t)) in H.
    injection H as -> H. f_equal. apply IH, H.
Qed.

Section Paths.
Context {F : Framework}.

Lemma ckpt_path_inj (e1 e2 : Z) : ckpt_path e1 = ckpt_path e2 -> e1 = e2.
Proof.
  unfold ckpt_path. intros H. apply String.app_inj in H.
  apply app_inv_tail_string in H. apply str_inj, H.
Qed.

Lemma ckpt_path_last (e : Z) : PyStr.last_char (ckpt_path e) = Some "r"%char.
Proof. unfold ckpt_path. rewrite !last_char_app by (repeat apply app_nonempty; discriminate). reflexivity. Qed.

Lemma reconstruction_path_last (e : Z) :
  PyStr.last_char (reconstruction_path e) = Some "g"%char.
Proof.
  unfold reconstruction_path. rewrite !last_char_app by (repeat apply app_nonempty; discriminate). reflexivity.
Qed.

Lemma samples_path_last (d : string) (e : Z) :
  PyStr.last_char (samples_path d e) = Some "g"%char.
Proof.
  unfold samples_path, PyStr.path_join.
  destruct (String.eqb d ""); [|destruct (PyStr.ends_with_slash d)];
    rewrite !last_char_app by (repeat apply app_nonempty; discriminate); reflexivity.
Qed.

Lemma ckpt_path_not_image (d : string) (e e' : Z) :
  ckpt_path e <> reconstruction_path e' /\ ckpt_path e <> samples_path d e'.
Proof.
  split; intros H; apply (f_equal PyStr.last_char) in H;
    rewrite ckpt_path_last in H;
    [rewrite reconstruction_path_last in H | rewrite samples_path_last in H];
    discriminate H.
Qed.

Lemma ckpt_path_not_resume (e : Z) : ckpt_path e <> resume_path.
Proof. unfold ckpt_path, resume_path. discriminate. Qed.

Lemma resume_path_not_image (d : string) (e : Z) :
  resume_path <> reconstruction_path e /\ resume_path <> samples_path d e.
Proof.
  split; intros H; apply (f_equal PyStr.last_char) in H;
    [rewrite reconstruction_path_last in H | rewrite samples_path_last in H];
    discriminate H.
Qed.

End Paths.

(** ** File system operations *)

Section FileSystem.
Context {F : Framework}.
Implicit Types f : gmap string node.

Lemma grows_refl f : grows f f.
Proof. intros q. now left. Qed.

Lemma grows_trans f1 f2 f3 : grows f1 f2 -> grows f2 f3 -> grows f1 f3.
Proof.
  intros H12 H23 q. destruct (H12 q) as [E12|[N1 D2]], (H23 q) as [E23|[N2 D3]].
  - left. congruence.
  - right. split; congruence.
  - right. split; congruence.
  - congruence.
Qed.

(** A file that is not a directory is in the larger map exactly when it is
    in the smaller one. *)
Lemma grows_file f f' (q : string) (n : node) :
  grows f f' -> n <> Dir -> (f' !! q = Some n <-> f !! q = Some n).
Proof.
  intros G Hn. destruct (G q) as [E|[N D]].
  - now rewrite E.
  - rewrite N, D. split; intros H; [|discriminate H].
    injection H as <-. contradiction.
Qed.

Lemma mkdir_exist_ok_grows (p : string) f f' :
  mkdir_exist_ok p f = OK f' -> grows f f'.
Proof.
  unfold mkdir_exist_ok. destruct (f !! p) as [[| | |]|] eqn:E; intros H;
    try discriminate H; injection H as <-.
  - apply grows_refl.
  - intros q. destruct (decide (p = q)) as [<-|Hne].
    + right. split; [exact E | apply lookup_insert_eq].
    + left. now apply lookup_insert_ne.
Qed.

Lemma makedirs_grows (p : string) f f' : makedirs p f = OK f' -> grows f f'.
Proof.
  unfold makedirs. destruct (String.eqb p ""); [discriminate|].
  apply (for_each_rel grows); [apply grows_refl | apply grows_trans |].
  intros f0 q f1 _. apply mkdir_exist_ok_grows.
Qed.

Lemma write_file_lookup (p : string) (n : node) f f' :
  write_file p n f = OK f' ->
  f' !! p = Some n /\ forall q, q <> p -> f' !! q = f !! q.
Proof.
  unfold write_file. intros H.
  assert (E : f' = <[p := n]> f)
    by (destruct (f !! p) as [[| | |]|]; congruence).
  subst f'. split; [apply lookup_insert_eq|].
  intros q Hq. now apply lookup_insert_ne.
Qed.

End FileSystem.

(** ** One evaluation pass *)

Section Test.
Context {F : Framework}.

(** The steps of a pass of [test] that returns. *)
Lemma test_inv (epoch : Z) (vae : Vae) (batch : nat) (num_samples : Z)
    (save_dir : string) (e e' : env) (s s' : session) :
  test epoch vae batch num_samples save_dir (e, s) = OK (e', s') ->
  let loop := test_loop (net s) vae (batches batch testset) (rng s) in
  let loss_meter := fst loop in
  let state := {| ck_net := net s; ck_test_loss := avg loss_meter;
                  ck_epoch := epoch |} in
  exists x f1 f2 f3 nrow f4 f5,
    last (batches batch testset) = Some x /\
    makedirs "ckpts" (fs e) = OK f1 /\
    torch_save state (ckpt_path epoch) f1 = OK f2 /\
    makedirs "samples" f2 = OK f3 /\
    grid_rows num_samples = OK nrow /\
    save_image (make_grid (reconstruct (net s) x) nrow)
               (reconstruction_path epoch) f3 = OK f4 /\
    makedirs save_dir f4 = OK f5 /\
    save_image (make_grid (fst (sample (net s) vae num_samples (snd loop))) nrow)
               (samples_path save_dir epoch) f5 = OK (fs e') /\
    best_loss e' = update_best (avg loss_meter) (best_loss e) /\
    global_step e' = global_step e /\
    net s' = net s /\ opt s' = opt s /\ opt_lr s' = opt_lr s.
Proof.
  unfold test. intros H. simpl.
  destruct (test_loop (net s) vae (batches batch testset) (rng s)) as [m r].
  destruct (last (batches batch testset)) as [x|]; [|discriminate H].
  simpl in H.
  inv_bind H as f1 M1. inv_bind H as f2 W1. inv_bind H as f3 M2.
  inv_bind H as nrow G1. inv_bind H as f4 W2.
  destruct (sample (net s) vae num_samples r) as [images r'] eqn:Es.
  inv_bind H as f5 M3. inv_bind H as nrow' G2. inv_bind H as f6 W3.
  injection H as <- <-. simpl.
  rewrite G1 in G2. injection G2 as <-.
  exists x, f1, f2, f3, nrow, f4, f5. repeat split; try assumption.
  rewrite Es. exact W3.
Qed.

(** What a pass of [test] does to the files. *)
Lemma test_files (epoch : Z) (vae : Vae) (batch : nat) (num_samples : Z)
    (save_dir : string) (e e' : env) (s s' : session) :
  test epoch vae batch num_samples save_dir (e, s) = OK (e', s') ->
  let loss_meter := fst (test_loop (net s) vae (batches batch testset) (rng s)) in
  fs e' !! ckpt_path epoch =
    Some (CkptFile {| ck_net := net s; ck_test_loss := avg loss_meter;
                      ck_epoch := epoch |}) /\
  forall q (n : node),
    q <> ckpt_path epoch -> q <> reconstruction_path epoch ->
    q <> samples_path save_dir epoch -> n <> Dir ->
    (fs e' !! q = Some n <-> fs e !! q = Some n).
Proof.
  intros H. apply test_inv in H.
  destruct H as (x & f1 & f2 & f3 & nrow & f4 & f5 &
                 _ & M1 & W1 & M2 & _ & W2 & M3 & W3 & _).
  apply makedirs_grows in M1, M2, M3.
  apply write_file_lookup in W1 as [L1 O1], W2 as [L2 O2], W3 as [L3 O3].
  destruct (ckpt_path_not_image save_dir epoch epoch) as [N1 N2].
  split.
  - rewrite (O3 _ N2).
    apply (grows_file _ _ _ _ M3); [discriminate|].
    rewrite (O2 _ N1).
    apply (grows_file _ _ _ _ M2); [discriminate|]. exact L1.
  - intros q n Q1 Q2 Q3 Hn.
    rewrite (O3 _ Q3), (grows_file _ _ _ _ M3 Hn), (O2 _ Q2),
      (grows_file _ _ _ _ M2 Hn), (O1 _ Q1).
    apply (grows_file _ _ _ _ M1 Hn).
Qed.

End Test.

(** ** One training pass *)

Lemma batches_fuel_concat {A : Type} (fuel n : nat) (l : list A) :
  (0 < n)%nat -> (length l <= fuel)%nat -> concat (batches_fuel fuel n l) = l.
Proof.
  intros Hn. revert l. induction fuel as [|fuel IH]; intros l Hl.
  - destruct l; [reflexivity | simpl in Hl; lia].
  - destruct l as [|a l]; [reflexivity|].
    change (batches_fuel (S fuel) n (a :: l))
      with (firstn n (a :: l) :: batches_fuel fuel n (skipn n (a :: l))).
    rewrite concat_cons, IH; [apply firstn_skipn|].
    rewrite length_skipn. simpl in Hl |- *. lia.
Qed.

(** With a positive batch size the batches cover the data set, in order. *)
Lemma batches_concat {A : Type} (n : nat) (l : list A) :
  (0 < n)%nat -> concat (batches n l) = l.
Proof. intros Hn. apply batches_fuel_concat; [exact Hn | lia]. Qed.

Section Train.
Context {F : Framework}.

Lemma train_step_inv (vae : Vae) (sc : LambdaLR) (max_grad_norm : Q)
    (e e' : env) (s s' : session) (m m' : AverageMeter) (x : list Image) :
  train_step vae sc max_grad_norm (e, s, m) x = OK (e', s', m') ->
  let grads := snd (fst (forward_backward (rng s) (net s) vae x)) in
  fs e' = fs e /\ best_loss e' = best_loss e /\
  global_step e' = global_step e + size0 x /\
  scheduler_step sc (global_step e) = OK (opt_lr s') /\
  (opt s', net s') =
    optimizer_step (opt s) (opt_lr s) (net s) (clipped_grads max_grad_norm grads).
Proof.
  unfold train_step. intros H. simpl.
  destruct (forward_backward (rng s) (net s) vae x) as [[loss grads] r].
  destruct (optimizer_step _ _ _ _) as [o n]. simpl.
  inv_bind H as rate Hr. injection H as <- <- <-. simpl.
  repeat split. exact Hr.
Qed.

Lemma train_loop_inv (vae : Vae) (sc : LambdaLR) (max_grad_norm : Q)
    (xs : list (list Image)) (e e' : env) (s s' : session)
    (m m' : AverageMeter) :
  train_loop vae sc max_grad_norm xs (e, s, m) = OK (e', s', m') ->
  fs e' = fs e /\ best_loss e' = best_loss e /\
  global_step e' = global_step e + size0 (concat xs).
Proof.
  unfold train_loop. revert e s m.
  induction xs as [|x xs IH]; intros e s m H.
  - injection H as <- <- <-. unfold size0. simpl. repeat split. lia.
  - change (for_each (x :: xs) (train_step vae sc max_grad_norm) (e, s, m))
      with (do st <- train_step vae sc max_grad_norm (e, s, m) x;
            for_each xs (train_step vae sc max_grad_norm) st) in H.
    inv_bind H as st E. destruct st as [[e1 s1] m1].
    apply train_step_inv in E as (E1 & E2 & E3 & _).
    apply IH in H as (H1 & H2 & H3).
    rewrite H1, H2, H3, E1, E2, E3. repeat split.
    unfold size0. rewrite concat_cons, length_app. lia.
Qed.

(** A pass of [train] leaves the files and [best_loss] alone and advances
    [global_step] by the size of the training set. *)
Lemma train_inv (epoch : Z) (vae : Vae) (batch : nat) (sc : LambdaLR)
    (max_grad_norm : Q) (e e' : env) (s s' : session) :
  train epoch vae batch sc max_grad_norm (e, s) = OK (e', s') ->
  fs e' = fs e /\ best_loss e' = best_loss e /\
  ((0 < batch)%nat ->
   global_step e' = global_step e + Z.of_nat (length trainset)).
Proof.
  unfold train. destruct (shuffle (rng s) trainset) as [data r] eqn:Es.
  intros H. inv_bind H as st Hst. destruct st as [[e1 s1] m1].
  injection H as <- <-.
  apply train_loop_inv in Hst as (H1 & H2 & H3).
  repeat split; [exact H1 | exact H2 |].
  intros Hb. rewrite H3, (batches_concat _ _ Hb). unfold size0.
  pose proof (shuffle_length (rng s) trainset) as Hl.
  rewrite Es in Hl. simpl in Hl. now rewrite Hl.
Qed.

End Train.

(** ** The warmup over optimizer steps *)


Section Warmup.
Context {F : Framework}.


End Warmup.


(** ** The epoch loop *)

Lemma epoch_range_In (start n epoch : Z) :
  In epoch (epoch_range start n) <-> start <= epoch < start + n.
Proof.
  unfold epoch_range. rewrite in_map_iff. split.
  - intros (i & <- & Hi). apply in_seq in Hi. lia.
  - intros H. exists (Z.to_nat (epoch - start)). split; [lia|].
    apply in_seq. lia.
Qed.

Lemma epoch_range_split (start n epoch : Z) :
  start <= epoch < start + n ->
  exists post,
    epoch_range start n = (epoch_range start (epoch - start) ++ epoch :: post)%list /\
    forall e, In e post -> epoch < e.
Proof.
  intros H. unfold epoch_range.
  remember (Z.to_nat (epoch - start)) as i eqn:Hi.
  remember (Z.to_nat n - S i)%nat as m eqn:Hm.
  exists (map (fun j => start + Z.of_nat j) (seq (S i) m)).
  split.
  - replace (Z.to_nat n) with (i + S m)%nat by lia.
    rewrite seq_app, map_app. simpl. f_equal. f_equal. lia.
  - intros e He. apply in_map_iff in He as (j & <- & Hj).
    apply in_seq in Hj. lia.
Qed.

Section Run.
Context {F : Framework}.

Lemma run_epoch_inv (args : Args) (vae : Vae) (sc : LambdaLR)
    (st st' : env * session) (epoch : Z) :
  run_epoch args vae sc st epoch = OK st' ->
  exists st1,
    train epoch vae (Z.to_nat (batch_size args)) sc (max_grad_norm args) st
      = OK st1 /\
    test epoch vae (Z.to_nat (batch_size args)) (num_samples args)
         (save_dir args) st1 = OK st'.
Proof. unfold run_epoch. intros H. inv_bind H as st1 H1. eauto. Qed.

(** An epoch changes no file other than the three it writes. *)
Lemma run_epoch_files (args : Args) (vae : Vae) (sc : LambdaLR)
    (st st' : env * session) (epoch : Z) (q : string) (n : node) :
  run_epoch args vae sc st epoch = OK st' ->
  n <> Dir -> q <> ckpt_path epoch -> q <> reconstruction_path epoch ->
  q <> samples_path (save_dir args) epoch ->
  (fs (fst st') !! q = Some n <-> fs (fst st) !! q = Some n).
Proof.
  intros H Hn Q1 Q2 Q3. apply run_epoch_inv in H as ([e1 s1] & Htrain & Htest).
  destruct st as [e s], st' as [e' s'].
  apply train_inv in Htrain as (Hfs & _).
  apply test_files in Htest as [_ Hother]. simpl.
  rewrite <- Hfs. now apply Hother.
Qed.

Lemma run_epochs_files (args : Args) (vae : Vae) (sc : LambdaLR)
    (epochs : list Z) (st st' : env * session) (q : string) (n : node) :
  run_epochs args vae sc epochs st = OK st' ->
  n <> Dir ->
  (forall epoch, In epoch epochs ->
     q <> ckpt_path epoch /\ q <> reconstruction_path epoch /\
     q <> samples_path (save_dir args) epoch) ->
  (fs (fst st') !! q = Some n <-> fs (fst st) !! q = Some n).
Proof.
  intros H Hn Hq. revert H. unfold run_epochs.
  apply (for_each_rel
           (fun a b : env * session =>
              fs (fst b) !! q = Some n <-> fs (fst a) !! q = Some n)).
  - reflexivity.
  - intros a b c Hab Hbc. now rewrite Hbc.
  - intros a epoch b Hin Hrun. destruct (Hq epoch Hin) as (Q1 & Q2 & Q3).
    now apply (run_epoch_files args vae sc a b epoch).
Qed.

Lemma main_build_inv (args a' : Args) (e : env) (vae : Vae) (n : Net) (r : Rng) :
  main_build args e = OK (a', vae, n, r) ->
  a' = scale_batch_size args /\ 0 < batch_size a' /\
  fs e !! vae_model_path args = Some (VaeFile vae).
Proof.
  unfold main_build. intros H.
  destruct ((seed (scale_batch_size args) <? 0)
            || (2 ^ 32 <=? seed (scale_batch_size args)))%Z; [discriminate H|].
  destruct (num_workers (scale_batch_size args) <? 0)%Z; [discriminate H|].
  destruct (Z.leb_spec (batch_size (scale_batch_size args)) 0) as [|Hb];
    [discriminate H|].
  inv_bind H as v Hv. inv_bind H as vae' Hvae.
  destruct (FlowPlusPlus (scale_batch_size args) _) as [n0 r0].
  injection H as <- <- <- <-.
  repeat split; [exact Hb|].
  unfold torch_load in Hv. change (vae_model_path (scale_batch_size args))
    with (vae_model_path args) in Hv.
  destruct (fs e !! vae_model_path args) as [[| | |]|];
    try discriminate Hv; injection Hv as <-; try discriminate Hvae.
  now injection Hvae as <-.
Qed.

End Run.

(** ** Best loss *)

Section BestLoss.
Context {F : Framework}.

(** C2. After an evaluation pass [best_loss] is the epoch's average loss if
    that is strictly below the previous value and the previous value
    otherwise. The global starts at 0, not at infinity, and a training pass
    does not touch it, so the first evaluation of a run that does not resume
    replaces it only by a negative average. *)
Theorem C2_best_loss_update (epoch : Z) (vae : Vae) (batch : nat)
    (num_samples : Z) (save_dir : string) (e e' : env) (s s' : session) :
  test epoch vae batch num_samples save_dir (e, s) = OK (e', s') ->
  let avg_loss :=
    avg (fst (test_loop (net s) vae (batches batch testset) (rng s))) in
  (improved avg_loss (best_loss e) = true <-> (avg_loss < best_loss e)%Q) /\
  best_loss e' =
    (if improved avg_loss (best_loss e) then avg_loss else best_loss e) /\
  (forall files, best_loss (initial_env files) = 0%Q) /\
  (best_loss e = 0%Q ->
   (best_loss e' = avg_loss /\ (avg_loss < 0)%Q) \/
   (best_loss e' = 0%Q /\ ~ (avg_loss < 0)%Q)) /\
  (forall args files n e0 n0 start ep sc s0,
     resume args = false ->
     main_resume args (initial_env files) n = OK (e0, n0, start) ->
     train ep vae batch sc (max_grad_norm args) (e0, s0) = OK (e, s) ->
     best_loss e = 0%Q).
Proof.
  intros H avg_loss. apply test_inv in H.
  destruct H as (x & f1 & f2 & f3 & nrow & f4 & f5 & H).
  destruct H as (_ & _ & _ & _ & _ & _ & _ & _ & Hbest & _).
  fold avg_loss in Hbest. unfold update_best in Hbest.
  split; [apply Qltb_lt|]. split; [exact Hbest|]. split; [reflexivity|].
  split.
  - intros H0. rewrite Hbest, H0. unfold improved.
    destruct (Qltb avg_loss 0) eqn:E.
    + left. split; [reflexivity | now apply Qltb_lt].
    + right. split; [reflexivity|]. apply Qltb_ge in E.
      now apply Qle_not_lt.
  - intros args files n e0 n0 start ep sc s0 Hres Hmr Htr.
    unfold main_resume in Hmr. rewrite Hres in Hmr. injection Hmr as <- _ _.
    apply train_inv in Htr as (_ & Hb & _). exact Hb.
Qed.

End BestLoss.

Lemma C2_best_loss_update_witness :
  exists e' s',
    test (F := Toy.framework) 0 tt 2 4 "samples"
         (initial_env Toy.fresh_files, Toy.session0) = OK (e', s') /\
    best_loss e' = 0%Q.
Proof.
  destruct (test (F := Toy.framework) 0 tt 2 4 "samples"
                 (initial_env Toy.fresh_files, Toy.session0))
    as [[e' s']|err] eqn:H; [|vm_compute in H; discriminate H].
  exists e', s'. split; [reflexivity|].
  destruct (C2_best_loss_update (F := Toy.framework) _ _ _ _ _ _ _ _ _ H)
    as (_ & Hbest & _).
  rewrite Hbest. vm_compute. reflexivity.
Defined.

(** ** Resuming *)

Section Resume.
Context {F : Framework}.

(** C3. When [--resume] is set, the directory [save] exists and
    [save/best.pth.tar] holds a checkpoint with epoch index E, [main] sets
    [global_step] to E times the number of training items, and the epoch loop
    starts at epoch E from that value. *)
Theorem C3_resume_global_step (args a' : Args) (e : env) (vae : Vae)
    (n : Net) (r : Rng) (c : checkpoint) :
  main_build args e = OK (a', vae, n, r) ->
  resume args = true ->
  isdir (fs e) "save" = true ->
  fs e !! resume_path = Some (CkptFile c) ->
  let resumed := {| fs := fs e; best_loss := ck_test_loss c;
                    global_step := ck_epoch c * Z.of_nat (length trainset) |} in
  main_resume a' e n = OK (resumed, ck_net c, ck_epoch c) /\
  main args e =
    (do (sc, optimizer, rate) <- main_optim a' (ck_net c);
     run_epochs a' vae sc (epoch_range (ck_epoch c) (num_epochs a'))
       (resumed,
        {| rng := r; net := ck_net c; opt := optimizer; opt_lr := rate |})).
Proof.
  intros Hb Hres Hdir Hfile resumed.
  pose proof (main_build_inv _ _ _ _ _ _ Hb) as (Ha & _).
  assert (Hmr : main_resume a' e n = OK (resumed, ck_net c, ck_epoch c)).
  { unfold main_resume, torch_load. subst a'.
    change (resume (scale_batch_size args)) with (resume args).
    rewrite Hres, Hdir, Hfile. reflexivity. }
  split; [exact Hmr|].
  unfold main. rewrite Hb. simpl. rewrite Hmr. reflexivity.
Qed.

(** C7. When [--resume] is set and [save] is not a directory, the resume
    block raises [AssertionError] with the message of the [assert],
    whatever is stored at [save/best.pth.tar]: the checkpoint is not
    loaded, and [main] ends with that exception once the loaders, the VAE
    and the flow were built. *)
Theorem C7_resume_without_directory (args : Args) (e : env) :
  resume args = true ->
  isdir (fs e) "save" = false ->
  (forall a' n, resume a' = true ->
     main_resume a' e n =
       Raise (AssertionError "Error: no checkpoint directory found!")) /\
  (forall a' vae n r, main_build args e = OK (a', vae, n, r) ->
     main args e =
       Raise (AssertionError "Error: no checkpoint directory found!")).
Proof.
  intros Hres Hdir.
  assert (Hmr : forall a' n, resume a' = true ->
    main_resume a' e n =
      Raise (AssertionError "Error: no checkpoint directory found!")).
  { intros a' n Ha. unfold main_resume. now rewrite Ha, Hdir. }
  split; [exact Hmr|].
  intros a' vae n r Hb. unfold main. rewrite Hb. simpl.
  rewrite Hmr; [reflexivity|].
  apply main_build_inv in Hb as (-> & _). exact Hres.
Qed.

End Resume.

Lemma C3_resume_global_step_witness :
  exists e' n',
    main_resume (F := Toy.framework) (scale_batch_size Toy.resume_args)
                (initial_env Toy.resume_files) 0 = OK (e', n', 7) /\
    global_step e' = 35.
Proof.
  destruct (C3_resume_global_step (F := Toy.framework)
              Toy.resume_args (scale_batch_size Toy.resume_args)
              (initial_env Toy.resume_files) tt 0 1 Toy.saved)
    as [Hmr _]; [reflexivity | reflexivity | reflexivity | reflexivity |].
  rewrite Hmr. eexists _, _. split; reflexivity.
Defined.

Lemma C7_resume_without_directory_witness :
  main (F := Toy.framework) Toy.resume_args (initial_env Toy.fresh_files) =
    Raise (AssertionError "Error: no checkpoint directory found!").
Proof.
  destruct (C7_resume_without_directory (F := Toy.framework)
              Toy.resume_args (initial_env Toy.fresh_files))
    as [_ Hmain]; [reflexivity | reflexivity |].
  apply (Hmain (scale_batch_size Toy.resume_args) tt 0 1). reflexivity.
Defined.

(** ** Checkpoints *)

Section Checkpoints.
Context {F : Framework}.

(** C4. In a run of the epoch loop that returns, every epoch of the range
    leaves a checkpoint at the path built from its number, whether or not
    the best loss improved: the file holds the flow's parameters as they
    were after that epoch's training pass, that epoch's average evaluation
    loss and the epoch index, and it is still there, unchanged, at the end
    of the run. Distinct epochs have distinct paths, and a checkpoint of an
    epoch outside the range is neither removed nor replaced. *)
Theorem C4_checkpoint_every_epoch (args : Args) (vae : Vae) (sc : LambdaLR)
    (start n epoch : Z) (st st' : env * session) :
  run_epochs args vae sc (epoch_range start n) st = OK st' ->
  start <= epoch < start + n ->
  let batch := Z.to_nat (batch_size args) in
  (exists st0 st1,
     run_epochs args vae sc (epoch_range start (epoch - start)) st = OK st0 /\
     train epoch vae batch sc (max_grad_norm args) st0 = OK st1 /\
     fs (fst st') !! ckpt_path epoch =
       Some (CkptFile
               {| ck_net := net (snd st1);
                  ck_test_loss :=
                    avg (fst (test_loop (net (snd st1)) vae
                                        (batches batch testset)
                                        (rng (snd st1))));
                  ck_epoch := epoch |})) /\
  ckpt_path epoch = "ckpts/flow++_" ++ PyStr.str epoch ++ "vae(n_d_n_l_64).pth.tar" /\
  (forall other, ckpt_path other = ckpt_path epoch -> other = epoch) /\
  (forall other c, ~ (start <= other < start + n) ->
     (fs (fst st') !! ckpt_path other = Some (CkptFile c) <->
      fs (fst st) !! ckpt_path other = Some (CkptFile c))).
Proof.
  intros Hrun Hin batch.
  split; [|split; [reflexivity|split; [intros other; apply ckpt_path_inj|]]].
  - destruct (epoch_range_split start n epoch Hin) as (post & Hsplit & Hpost).
    unfold run_epochs in Hrun. rewrite Hsplit, for_each_app in Hrun.
    inv_bind Hrun as st0 Hpre. simpl in Hrun. inv_bind Hrun as st2 Hepoch.
    apply run_epoch_inv in Hepoch as (st1 & Htrain & Htest).
    exists st0, st1. split; [exact Hpre|]. split; [exact Htrain|].
    destruct st1 as [e1 s1], st2 as [e2 s2].
    apply test_files in Htest as [Hck _]. simpl in Hck |- *. fold batch in Hck.
    apply (run_epochs_files args vae sc post (e2, s2) st' _ _ Hrun);
      [discriminate| |exact Hck].
    intros later Hlater. apply Hpost in Hlater.
    destruct (ckpt_path_not_image (save_dir args) epoch later) as [N1 N2].
    repeat split; [|exact N1|exact N2].
    intros E. apply ckpt_path_inj in E. lia.
  - intros other c Hout.
    apply (run_epochs_files args vae sc (epoch_range start n) st st');
      [exact Hrun|discriminate|].
    intros later Hlater. apply epoch_range_In in Hlater.
    destruct (ckpt_path_not_image (save_dir args) other later) as [N1 N2].
    repeat split; [|exact N1|exact N2].
    intros E. apply ckpt_path_inj in E. lia.
Qed.

(** C9. The resume block reads the fixed path [save/best.pth.tar]; the
    evaluation pass writes its checkpoint to
    [ckpts/flow++_<epoch>vae(n_d_n_l_64).pth.tar], which is never that path.
    So whatever checkpoint is at [save/best.pth.tar] after a run of the
    epoch loop was there before it. *)
Theorem C9_resume_file_not_written (args : Args) (vae : Vae) (sc : LambdaLR)
    (epochs : list Z) (st st' : env * session) :
  run_epochs args vae sc epochs st = OK st' ->
  resume_path = "save/best.pth.tar" /\
  (forall epoch, ckpt_path epoch <> resume_path) /\
  (forall c, fs (fst st') !! resume_path = Some (CkptFile c) <->
             fs (fst st) !! resume_path = Some (CkptFile c)) /\
  (forall a e n e' n' start_epoch,
     resume a = true -> main_resume a e n = OK (e', n', start_epoch) ->
     fs e !! resume_path =
       Some (CkptFile {| ck_net := n'; ck_test_loss := best_loss e';
                         ck_epoch := start_epoch |})).
Proof.
  intros Hrun. split; [reflexivity|]. split; [apply ckpt_path_not_resume|].
  split.
  - intros c.
    apply (run_epochs_files args vae sc epochs st st');
      [exact Hrun|discriminate|].
    intros epoch _.
    destruct (resume_path_not_image (save_dir args) epoch) as [N1 N2].
    repeat split; [|exact N1|exact N2].
    intros E. symmetry in E. exact (ckpt_path_not_resume epoch E).
  - intros a e n e' n' start_epoch Ha H.
    unfold main_resume in H. rewrite Ha in H.
    destruct (isdir (fs e) "save"); [|discriminate H].
    inv_bind H as nd Hload. inv_bind H as c Hc.
    injection H as <- <- <-. simpl.
    unfold torch_load in Hload.
    destruct (fs e !! resume_path) as [[|c'| |]|];
      try discriminate Hload; injection Hload as <-; try discriminate Hc.
    injection Hc as <-. now destruct c'.
Qed.

End Checkpoints.

Lemma C4_checkpoint_every_epoch_witness :
  exists st' c,
    run_epochs (F := Toy.framework) Toy.args tt Toy.sched (epoch_range 0 2)
               (initial_env Toy.fresh_files, Toy.session0) = OK st' /\
    fs (fst st') !! ckpt_path 0 = Some (CkptFile c) /\ ck_epoch c = 0.
Proof.
  destruct (run_epochs (F := Toy.framework) Toy.args tt Toy.sched
                       (epoch_range 0 2)
                       (initial_env Toy.fresh_files, Toy.session0))
    as [st'|err] eqn:H; [|vm_compute in H; discriminate H].
  destruct (C4_checkpoint_every_epoch (F := Toy.framework) _ _ _ 0 2 0 _ _ H)
    as [(st0 & st1 & _ & _ & Hfile) _]; [lia|].
  exists st'. eexists. split; [reflexivity|]. split; [exact Hfile | reflexivity].
Defined.

Lemma C9_resume_file_not_written_witness :
  exists st',
    run_epochs (F := Toy.framework) Toy.resume_args tt Toy.sched
               (epoch_range 7 2)
               (initial_env Toy.resume_files, Toy.session0) = OK st' /\
    fs (fst st') !! resume_path = Some (CkptFile Toy.saved).
Proof.
  destruct (run_epochs (F := Toy.framework) Toy.resume_args tt Toy.sched
                       (epoch_range 7 2)
                       (initial_env Toy.resume_files, Toy.session0))
    as [st'|err] eqn:H; [|vm_compute in H; discriminate H].
  destruct (C9_resume_file_not_written (F := Toy.framework) _ _ _ _ _ _ H)
    as (_ & _ & Hkeep & _).
  exists st'. split; [reflexivity|]. apply Hkeep. reflexivity.
Defined.

(** ** Sigmoid outputs *)

Lemma sigmoid_real_range (x : R) : (0 <= sigmoid_real x <= 1)%R.
Proof.
  unfold sigmoid_real. pose proof (exp_pos (- x)) as He.
  assert (Hd : (0 < 1 + exp (- x))%R) by lra.
  split.
  - apply Rlt_le. apply Rdiv_lt_0_compat; lra.
  - apply (Rmult_le_reg_r (1 + exp (- x))); [exact Hd|].
    unfold Rdiv. rewrite Rmult_assoc, Rinv_l by lra. lra.
Qed.

(** The sigmoid of an entry is NaN for NaN and a pixel value otherwise. *)
Lemma sigmoid_entry (z : tval) :
  (z = NaN /\ sigmoid z = NaN) \/ (z <> NaN /\ in_unit (sigmoid z)).
Proof.
  destruct z as [x| | |]; simpl.
  - right. split; [discriminate | apply sigmoid_real_range].
  - right. split; [discriminate | lra].
  - right. split; [discriminate | lra].
  - left. now split.
Qed.

Lemma sigmoid_entries (l : list tval) :
  Forall2 (fun z v => (z = NaN /\ v = NaN) \/ (z <> NaN /\ in_unit v))
          l (map sigmoid l).
Proof.
  induction l as [|z l IH]; simpl; constructor; [apply sigmoid_entry | exact IH].
Qed.

Section Outputs.
Context {F : Framework}.

(** C6, as the code has it. What [sample] returns and the reconstruction
    computed in [test] are the sigmoid, entry by entry, of the output of the
    flow's inverse. An output entry is a pixel value in [0, 1] where the
    inverse's entry is a number or an infinity, and it is NaN where the
    inverse's entry is NaN. *)
Theorem C6_outputs_in_unit_interval (n : Net) (vae : Vae) (num_samples : Z)
    (r : Rng) (x : list Image) :
  let z := fst (vae_prior_sample r vae num_samples) in
  fst (sample n vae num_samples r) = map sigmoid (net_reverse n z) /\
  reconstruct n x = map sigmoid (net_reverse n x) /\
  Forall2 (fun i v => (i = NaN /\ v = NaN) \/ (i <> NaN /\ in_unit v))
          (net_reverse n z) (fst (sample n vae num_samples r)) /\
  Forall2 (fun i v => (i = NaN /\ v = NaN) \/ (i <> NaN /\ in_unit v))
          (net_reverse n x) (reconstruct n x).
Proof.
  intros z.
  assert (Hs : fst (sample n vae num_samples r) = map sigmoid (net_reverse n z)).
  { unfold sample, z. now destruct (vae_prior_sample r vae num_samples). }
  rewrite Hs. unfold reconstruct.
  repeat split; apply sigmoid_entries.
Qed.

End Outputs.

(** C6 as the spec words it fails: for a state of the flow whose inverse
    returns NaN, the sample and the reconstruction hold a NaN, which is not a
    value in [0, 1]. *)
Lemma C6_counterexample :
  ~ Forall in_unit (fst (sample (F := ToyNaN.framework) 0 tt 1 0)) /\
  ~ Forall in_unit (reconstruct (F := ToyNaN.framework) 0 [6; 7]).
Proof.
  split; intros H; apply Forall_inv in H; exact H.
Qed.

(** ** Gradient clipping *)

Lemma sum_squares_nonneg (g : list R) : (0 <= sum_squares g)%R.
Proof.
  induction g as [|x g IH]; simpl; [lra|].
  pose proof (Rle_0_sqr x) as Hx. unfold Rsqr in Hx. lra.
Qed.

Lemma sum_squares_scale (c : R) (g : list R) :
  sum_squares (map (fun x => (c * x)%R) g) = (c * c * sum_squares g)%R.
Proof.
  induction g as [|x g IH]; simpl; [ring|]. rewrite IH. ring.
Qed.

Lemma grad_norm_scale (c : R) (g : list R) :
  (0 <= c)%R -> grad_norm (map (fun x => (c * x)%R) g) = (c * grad_norm g)%R.
Proof.
  intros Hc. unfold grad_norm. rewrite sum_squares_scale.
  rewrite sqrt_mult_alt by (apply Rmult_le_pos; exact Hc).
  now rewrite sqrt_square.
Qed.

(** The modelled clipping leaves the norm at or below a positive threshold. *)
Lemma clip_grad_norm_bound (T : R) (g : list R) :
  (0 < T)%R -> (grad_norm (clip_grad_norm T g) <= T)%R.
Proof.
  intros HT. unfold clip_grad_norm.
  destruct (Rle_dec (grad_norm g) T) as [Hle|Hgt]; [exact Hle|].
  assert (Hn : (0 < grad_norm g)%R) by lra.
  rewrite grad_norm_scale.
  - unfold Rdiv. rewrite Rmult_assoc, Rinv_l by lra. lra.
  - apply Rlt_le. apply Rdiv_lt_0_compat; assumption.
Qed.

Section Clipping.
Context {F : Framework}.

(** C5. In a training step the gradients handed to the optimizer step are,
    for a threshold T > 0, the clipped ones, whose global norm is at most T,
    and for T <= 0 the gradients of the backward pass themselves: the
    clipping call is skipped. The optimizer step comes after the clipping. *)
Theorem C5_gradient_clipping (T : Q) (g : list R) :
  ((0 < T)%Q ->
     clipped_grads T g = clip_grad_norm (Q2R T) g /\
     (grad_norm (clipped_grads T g) <= Q2R T)%R) /\
  ((T <= 0)%Q -> clipped_grads T g = g) /\
  (forall vae sc e s m x e' s' m',
     train_step vae sc T (e, s, m) x = OK (e', s', m') ->
     (opt s', net s') =
       optimizer_step (opt s) (opt_lr s) (net s)
         (clipped_grads T
            (snd (fst (forward_backward (rng s) (net s) vae x))))).
Proof.
  split; [|split].
  - intros HT. unfold clipped_grads.
    apply Qltb_lt in HT as Hb. rewrite Hb. split; [reflexivity|].
    apply clip_grad_norm_bound.
    apply Qlt_Rlt in HT. now rewrite RMicromega.Q2R_0 in HT.
  - intros HT. unfold clipped_grads.
    apply Qltb_ge in HT. now rewrite HT.
  - intros vae sc e s m x e' s' m' H.
    apply train_step_inv in H. apply H.
Qed.

End Clipping.

Lemma C5_gradient_clipping_witness :
  (grad_norm (clipped_grads 1 [3; 4]%R) <= Q2R 1)%R /\
  clipped_grads 0 [3; 4]%R = [3; 4]%R.
Proof.
  destruct (C5_gradient_clipping (F := Toy.framework) 1 [3; 4]%R)
    as (Hpos & _).
  destruct (C5_gradient_clipping (F := Toy.framework) 0 [3; 4]%R)
    as (_ & Hzero & _).
  split; [apply Hpos; reflexivity | apply Hzero; discriminate].
Defined.

(** * Further properties of the script *)

(** ** Loops with an invariant *)

Lemma for_each_inv {A B : Type} (P : A -> Prop) (l : list B)
    (body : A -> B -> result A) :
  (forall a x a', In x l -> P a -> body a x = OK a' -> P a') ->
  forall a a', P a -> for_each l body a = OK a' -> P a'.
Proof.
  induction l as [|x l IH]; intros Hbody a a' Ha H.
  - injection H as <-. exact Ha.
  - simpl in H. inv_bind H as a1 H1.
    apply (IH (fun b y b' Hy => Hbody b y b' (or_intror Hy)) a1 a'); [|exact H].
    apply (Hbody a x a1); [now left | exact Ha | exact H1].
Qed.

(** ** The image paths *)

Lemma app_assoc_string (a b c : string) : (a ++ b) ++ c = a ++ (b ++ c).
Proof.
  induction a as [|x a IH]; [reflexivity|].
  change (String x ((a ++ b) ++ c) = String x (a ++ (b ++ c))). now rewrite IH.
Qed.

Lemma has_char_app (c : ascii) (a b : string) :
  has_char c (a ++ b) = (has_char c a || has_char c b)%bool.
Proof.
  induction a as [|x a IH]; [reflexivity|].
  change (has_char c (String x (a ++ b))
          = (has_char c (String x a) || has_char c b)%bool).
  simpl. rewrite IH. now rewrite orb_assoc.
Qed.

Lemma uint_no_underscore (d : Decimal.uint) :
  has_char "_" (NilEmpty.string_of_uint d) = false.
Proof. induction d; simpl; auto. Qed.

(** [str(n)] has digits and at most a sign, never an underscore. *)
Lemma str_no_underscore (n : Z) : has_char "_" (PyStr.str n) = false.
Proof.
  unfold PyStr.str, NilZero.string_of_int, NilZero.string_of_uint.
  destruct (Z.to_int n) as [d|d]; destruct d; simpl;
    try reflexivity; apply uint_no_underscore.
Qed.

(** A string splits in one way around its last occurrence of [c]. *)
Lemma split_at_last (c : ascii) (a b d1 d2 : string) :
  has_char c d1 = false -> has_char c d2 = false ->
  a ++ String c d1 = b ++ String c d2 -> a = b /\ d1 = d2.
Proof.
  intros H1 H2.
  assert (Hin : forall x y, has_char c (x ++ String c y) = true).
  { intros x y. rewrite has_char_app. simpl. rewrite Ascii.eqb_refl.
    now rewrite orb_true_r. }
  revert b. induction a as [|x a IH]; intros [|y b] H.
  - change (String c d1 = String c d2) in H. injection H as ->. now split.
  - change (String c d1 = String y (b ++ String c d2)) in H.
    injection H as _ ->. rewrite Hin in H1. discriminate H1.
  - change (String x (a ++ String c d1) = String c d2) in H.
    injection H as _ <-. rewrite Hin in H2. discriminate H2.
  - change (String x (a ++ String c d1) = String y (b ++ String c d2)) in H.
    injection H as -> H. destruct (IH b H) as [-> ->]. now split.
Qed.

Section ImagePaths.
Context {F : Framework}.

Lemma reconstruction_path_inj (e1 e2 : Z) :
  reconstruction_path e1 = reconstruction_path e2 -> e1 = e2.
Proof.
  unfold reconstruction_path. intros H. apply String.app_inj in H.
  apply app_inv_tail_string in H. apply str_inj, H.
Qed.

Lemma samples_path_inj (d : string) (e1 e2 : Z) :
  samples_path d e1 = samples_path d e2 -> e1 = e2.
Proof.
  unfold samples_path, PyStr.path_join. intros H.
  assert (E : "epoch_" ++ PyStr.str e1 ++ ".png"
              = "epoch_" ++ PyStr.str e2 ++ ".png").
  { destruct (String.eqb d ""); [exact H|].
    destruct (PyStr.ends_with_slash d); apply String.app_inj in H;
      [exact H | apply String.app_inj in H; exact H]. }
  apply String.app_inj in E. apply app_inv_tail_string in E. apply str_inj, E.
Qed.

(** The sample grid of one epoch is never the reconstruction grid of another
    or of the same epoch, whatever [--save_dir] is. *)
Lemma reconstruction_not_samples (d : string) (e1 e2 : Z) :
  reconstruction_path e1 <> samples_path d e2.
Proof.
  assert (Hno : forall e, has_char "_" (PyStr.str e ++ ".png") = false).
  { intros e. rewrite has_char_app, str_no_underscore. reflexivity. }
  unfold samples_path, PyStr.path_join. intros H.
  change (reconstruction_path e1)
    with ("samples/reconstruction_epoch" ++ String "_" (PyStr.str e1 ++ ".png"))
    in H.
  destruct (String.eqb d "") eqn:Ed;
    [|destruct (PyStr.ends_with_slash d) eqn:Es].
  - change ("epoch_" ++ PyStr.str e2 ++ ".png")
      with ("epoch" ++ String "_" (PyStr.str e2 ++ ".png")) in H.
    apply split_at_last in H as [H _]; [discriminate H | apply Hno | apply Hno].
  - change (d ++ "epoch_" ++ PyStr.str e2 ++ ".png")
      with (d ++ ("epoch" ++ String "_" (PyStr.str e2 ++ ".png"))) in H.
    rewrite <- app_assoc_string in H.
    apply split_at_last in H as [H _]; [|apply Hno|apply Hno].
    change ("samples/reconstruction_" ++ "epoch" = d ++ "epoch") in H.
    apply app_inv_tail_string in H. subst d. vm_compute in Es. discriminate Es.
  - change (d ++ "/" ++ "epoch_" ++ PyStr.str e2 ++ ".png")
      with (d ++ ("/epoch" ++ String "_" (PyStr.str e2 ++ ".png"))) in H.
    rewrite <- app_assoc_string in H.
    apply split_at_last in H as [H _]; [|apply Hno|apply Hno].
    change ("samples/reconstruction_" ++ "epoch" = d ++ "/" ++ "epoch") in H.
    rewrite <- app_assoc_string in H.
    apply app_inv_tail_string in H. apply (f_equal PyStr.last_char) in H.
    rewrite last_char_app in H by discriminate. discriminate H.
Qed.

End ImagePaths.

(** ** Directories and files under the file operations *)

Section Directories.
Context {F : Framework}.
Implicit Types f : gmap string node.

Lemma grows_dir f f' (q : string) :
  grows f f' -> f !! q = Some Dir -> f' !! q = Some Dir.
Proof. intros G H. destruct (G q) as [E|[N _]]; congruence. Qed.

Lemma grows_present f f' (q : string) :
  grows f f' -> is_Some (f !! q) -> is_Some (f' !! q).
Proof.
  intros G [n H]. destruct (G q) as [E|[N _]]; [|congruence].
  exists n. congruence.
Qed.

Lemma makedirs_isdir (p : string) f f' :
  makedirs p f = OK f' -> f' !! p = Some Dir.
Proof.
  unfold makedirs. destruct (String.eqb p ""); [discriminate|].
  rewrite for_each_app. intros H. inv_bind H as f1 H1.
  simpl in H. inv_bind H as f2 H2. injection H as <-.
  unfold mkdir_exist_ok in H2.
  destruct (f1 !! p) as [[| | |]|] eqn:E; try discriminate H2;
    injection H2 as <-; [exact E | apply lookup_insert_eq].
Qed.

Lemma write_file_dir (p q : string) (n : node) f f' :
  write_file p n f = OK f' -> f !! q = Some Dir -> f' !! q = Some Dir.
Proof.
  intros H Hq. destruct (decide (q = p)) as [->|Hne].
  - unfold write_file in H. rewrite Hq in H. discriminate H.
  - apply write_file_lookup in H as [_ Ho]. now rewrite (Ho q Hne).
Qed.

Lemma write_file_present (p q : string) (n : node) f f' :
  write_file p n f = OK f' -> is_Some (f !! q) -> is_Some (f' !! q).
Proof.
  intros H Hq. apply write_file_lookup in H as [Hp Ho].
  destruct (decide (q = p)) as [->|Hne]; [eauto | now rewrite (Ho q Hne)].
Qed.

(** A pass of [test] keeps every directory a directory and every path
    present. *)
Lemma test_keeps (epoch : Z) (vae : Vae) (batch : nat) (num_samples : Z)
    (save_dir : string) (e e' : env) (s s' : session) (q : string) :
  test epoch vae batch num_samples save_dir (e, s) = OK (e', s') ->
  (fs e !! q = Some Dir -> fs e' !! q = Some Dir) /\
  (is_Some (fs e !! q) -> is_Some (fs e' !! q)).
Proof.
  intros H. apply test_inv in H.
  destruct H as (x & f1 & f2 & f3 & nrow & f4 & f5 &
                 _ & M1 & W1 & M2 & _ & W2 & M3 & W3 & _).
  apply makedirs_grows in M1, M2, M3. split; intros Hq.
  - eapply write_file_dir; [exact W3|]. eapply grows_dir; [exact M3|].
    eapply write_file_dir; [exact W2|]. eapply grows_dir; [exact M2|].
    eapply write_file_dir; [exact W1|]. eapply grows_dir; [exact M1|].
    exact Hq.
  - eapply write_file_present; [exact W3|]. eapply grows_present; [exact M3|].
    eapply write_file_present; [exact W2|]. eapply grows_present; [exact M2|].
    eapply write_file_present; [exact W1|]. eapply grows_present; [exact M1|].
    exact Hq.
Qed.

Lemma run_epoch_keeps (args : Args) (vae : Vae) (sc : LambdaLR)
    (st st' : env * session) (epoch : Z) (q : string) :
  run_epoch args vae sc st epoch = OK st' ->
  (fs (fst st) !! q = Some Dir -> fs (fst st') !! q = Some Dir) /\
  (is_Some (fs (fst st) !! q) -> is_Some (fs (fst st') !! q)).
Proof.
  intros H. apply run_epoch_inv in H as ([e1 s1] & Htrain & Htest).
  destruct st as [e s], st' as [e' s'].
  apply train_inv in Htrain as (Hfs & _). simpl. rewrite <- Hfs.
  exact (test_keeps _ _ _ _ _ _ _ _ _ q Htest).
Qed.

Lemma run_epochs_keeps (args : Args) (vae : Vae) (sc : LambdaLR)
    (epochs : list Z) (st st' : env * session) (q : string) :
  run_epochs args vae sc epochs st = OK st' ->
  (fs (fst st) !! q = Some Dir -> fs (fst st') !! q = Some Dir) /\
  (is_Some (fs (fst st) !! q) -> is_Some (fs (fst st') !! q)).
Proof.
  unfold run_epochs.
  apply (for_each_rel
           (fun a b : env * session =>
              (fs (fst a) !! q = Some Dir -> fs (fst b) !! q = Some Dir) /\
              (is_Some (fs (fst a) !! q) -> is_Some (fs (fst b) !! q)))).
  - intros a. split; auto.
  - intros a b c [D1 P1] [D2 P2]. split; auto.
  - intros a epoch b _. apply run_epoch_keeps.
Qed.

(** The parts of a run of [main] that returns. *)
Lemma main_inv (args : Args) (e e' : env) (s' : session) :
  main args e = OK (e', s') ->
  exists vae n r e1 n1 start_epoch sc optimizer rate,
    let a' := scale_batch_size args in
    main_build args e = OK (a', vae, n, r) /\
    main_resume a' e n = OK (e1, n1, start_epoch) /\
    main_optim a' n1 = OK (sc, optimizer, rate) /\
    run_epochs a' vae sc (epoch_range start_epoch (num_epochs a'))
      (e1, {| rng := r; net := n1; opt := optimizer; opt_lr := rate |})
      = OK (e', s').
Proof.
  unfold main. intros H.
  inv_bind H as b Hb. destruct b as [[[a' vae] n] r].
  inv_bind H as c Hc. destruct c as [[e1 n1] start_epoch].
  inv_bind H as d Hd. destruct d as [[sc optimizer] rate].
  pose proof (main_build_inv _ _ _ _ _ _ Hb) as (-> & _).
  exists vae, n, r, e1, n1, start_epoch, sc, optimizer, rate.
  simpl. repeat split; assumption.
Qed.

Lemma main_resume_fs (a : Args) (e e1 : env) (n n1 : Net) (start_epoch : Z) :
  main_resume a e n = OK (e1, n1, start_epoch) -> fs e1 = fs e.
Proof.
  unfold main_resume. intros H.
  destruct (resume a); [|now injection H as <- _ _].
  destruct (isdir (fs e) "save"); [|discriminate H].
  inv_bind H as nd Hnd. inv_bind H as c Hc. now injection H as <- _ _.
Qed.

End Directories.

(** ** The evaluation pass *)

Lemma isdir_true {F : Framework} (f : gmap string node) (q : string) :
  isdir f q = true <-> f !! q = Some Dir.
Proof.
  unfold isdir. destruct (f !! q) as [[| | |]|]; split; congruence.
Qed.

Lemma grid_rows_OK (num_samples nrow : Z) :
  grid_rows num_samples = OK nrow -> 0 <= num_samples /\ nrow = Z.sqrt num_samples.
Proof.
  unfold grid_rows. destruct (Z.ltb_spec num_samples 0) as [Hlt|Hge];
    [discriminate|].
  intros E. injection E as <-. now split.
Qed.

Section Evaluation.
Context {F : Framework}.

Lemma test_images (epoch : Z) (vae : Vae) (batch : nat)
    (num_samples : Z) (save_dir : string) (e e' : env) (s s' : session) :
  test epoch vae batch num_samples save_dir (e, s) = OK (e', s') ->
  let loop := test_loop (net s) vae (batches batch testset) (rng s) in
  exists x,
    last (batches batch testset) = Some x /\
    0 <= num_samples /\
    fs e' !! reconstruction_path epoch =
      Some (ImageFile (make_grid (reconstruct (net s) x) (Z.sqrt num_samples))) /\
    fs e' !! samples_path save_dir epoch =
      Some (ImageFile (make_grid (fst (sample (net s) vae num_samples (snd loop)))
                                 (Z.sqrt num_samples))).
Proof.
  intros H loop. apply test_inv in H.
  destruct H as (x & f1 & f2 & f3 & nrow & f4 & f5 &
                 Hx & M1 & W1 & M2 & G & W2 & M3 & W3 & _).
  apply grid_rows_OK in G as [Hns ->].
  pose proof (reconstruction_not_samples save_dir epoch epoch) as Hne.
  apply makedirs_grows in M3.
  apply write_file_lookup in W2 as [L2 _], W3 as [L3 O3].
  exists x. repeat split; try assumption.
  rewrite (O3 _ Hne). apply (grows_file _ _ _ _ M3); [discriminate | exact L2].
Qed.

(** After an evaluation pass that returns, the reconstruction grid of the
    last test batch is at [samples/reconstruction_epoch_<epoch>.png] and the
    grid of fresh samples at [<save_dir>/epoch_<epoch>.png]; the two paths
    differ for every [--save_dir], so neither image replaces the other. The
    grids have [floor (sqrt num_samples)] images per row. *)
Theorem test_writes_both_images (epoch : Z) (vae : Vae) (batch : nat)
    (num_samples : Z) (save_dir : string) (e e' : env) (s s' : session) :
  test epoch vae batch num_samples save_dir (e, s) = OK (e', s') ->
  let loop := test_loop (net s) vae (batches batch testset) (rng s) in
  exists x,
    last (batches batch testset) = Some x /\
    0 <= num_samples /\
    fs e' !! reconstruction_path epoch =
      Some (ImageFile (make_grid (reconstruct (net s) x) (Z.sqrt num_samples))) /\
    fs e' !! samples_path save_dir epoch =
      Some (ImageFile (make_grid (fst (sample (net s) vae num_samples (snd loop)))
                                 (Z.sqrt num_samples))) /\
    reconstruction_path epoch <> samples_path save_dir epoch.
Proof.
  intros H loop. destruct (test_images _ _ _ _ _ _ _ _ _ H) as (x & H1 & H2 & H3 & H4).
  exists x. repeat split; try assumption.
  apply reconstruction_not_samples.
Qed.

(** After an evaluation pass that returns, [ckpts], [samples] and the
    non-empty [--save_dir] are directories, and every directory that existed
    before still is one. *)
Theorem test_makes_directories (epoch : Z) (vae : Vae) (batch : nat)
    (num_samples : Z) (save_dir : string) (e e' : env) (s s' : session) :
  test epoch vae batch num_samples save_dir (e, s) = OK (e', s') ->
  isdir (fs e') "ckpts" = true /\ isdir (fs e') "samples" = true /\
  isdir (fs e') save_dir = true /\ save_dir <> "" /\
  (forall q, isdir (fs e) q = true -> isdir (fs e') q = true).
Proof.
  intros H. pose proof H as Hinv. apply test_inv in Hinv.
  destruct Hinv as (x & f1 & f2 & f3 & nrow & f4 & f5 &
                    _ & M1 & W1 & M2 & _ & W2 & M3 & W3 & _).
  pose proof (makedirs_isdir _ _ _ M1) as D1.
  pose proof (makedirs_isdir _ _ _ M2) as D2.
  pose proof (makedirs_isdir _ _ _ M3) as D3.
  apply makedirs_grows in M2 as G2. apply makedirs_grows in M3 as G3.
  rewrite !isdir_true. repeat split.
  - eapply write_file_dir; [exact W3|]. eapply grows_dir; [exact G3|].
    eapply write_file_dir; [exact W2|]. eapply grows_dir; [exact G2|].
    eapply write_file_dir; [exact W1|]. exact D1.
  - eapply write_file_dir; [exact W3|]. eapply grows_dir; [exact G3|].
    eapply write_file_dir; [exact W2|]. exact D2.
  - eapply write_file_dir; [exact W3|]. exact D3.
  - intros ->. unfold makedirs in M3. discriminate M3.
  - intros q. rewrite !isdir_true.
    apply (test_keeps _ _ _ _ _ _ _ _ _ q H).
Qed.

(** With a negative [--num_samples] no evaluation pass returns: once the
    checkpoint is written, [int(num_samples ** 0.5)] raises [TypeError]. *)
Theorem test_negative_num_samples (epoch : Z) (vae : Vae) (batch : nat)
    (num_samples : Z) (save_dir : string) (e : env) (s : session) :
  num_samples < 0 ->
  (forall st', test epoch vae batch num_samples save_dir (e, s) <> OK st') /\
  (forall x f1 f2 f3,
     last (batches batch testset) = Some x ->
     makedirs "ckpts" (fs e) = OK f1 ->
     torch_save
       {| ck_net := net s;
          ck_test_loss :=
            avg (fst (test_loop (net s) vae (batches batch testset) (rng s)));
          ck_epoch := epoch |} (ckpt_path epoch) f1 = OK f2 ->
     makedirs "samples" f2 = OK f3 ->
     test epoch vae batch num_samples save_dir (e, s)
       = Raise (TypeError "int() argument is complex")).
Proof.
  intros Hneg. split.
  - intros [e' s'] H. apply test_inv in H.
    destruct H as (x & f1 & f2 & f3 & nrow & f4 & f5 & _ & _ & _ & _ & G & _).
    apply grid_rows_OK in G. lia.
  - intros x f1 f2 f3 Hx M1 W1 M2. unfold test.
    destruct (test_loop (net s) vae (batches batch testset) (rng s)) as [m r].
    rewrite Hx. simpl in W1 |- *. rewrite M1. simpl. rewrite W1. simpl.
    rewrite M2. simpl. unfold grid_rows.
    destruct (Z.ltb_spec num_samples 0); [reflexivity | lia].
Qed.

End Evaluation.

Lemma test_writes_both_images_witness :
  exists e' s',
    test (F := Toy.framework) 0 tt 2 4 "samples"
         (initial_env Toy.fresh_files, Toy.session0) = OK (e', s') /\
    fs e' !! "samples/reconstruction_epoch_0.png" = Some (ImageFile []) /\
    fs e' !! "samples/epoch_0.png" = Some (ImageFile []).
Proof.
  destruct (test (F := Toy.framework) 0 tt 2 4 "samples"
                 (initial_env Toy.fresh_files, Toy.session0))
    as [[e' s']|err] eqn:H; [|vm_compute in H; discriminate H].
  exists e', s'. split; [reflexivity|].
  destruct (test_writes_both_images (F := Toy.framework) _ _ _ _ _ _ _ _ _ H)
    as (x & _ & _ & Hr & Hs & _).
  split; [exact Hr | exact Hs].
Defined.

Lemma test_makes_directories_witness :
  exists e' s',
    test (F := Toy.framework) 0 tt 2 4 "out/grids"
         (initial_env Toy.fresh_files, Toy.session0) = OK (e', s') /\
    isdir (fs e') "ckpts" = true /\ isdir (fs e') "out/grids" = true.
Proof.
  destruct (test (F := Toy.framework) 0 tt 2 4 "out/grids"
                 (initial_env Toy.fresh_files, Toy.session0))
    as [[e' s']|err] eqn:H; [|vm_compute in H; discriminate H].
  exists e', s'. split; [reflexivity|].
  destruct (test_makes_directories (F := Toy.framework) _ _ _ _ _ _ _ _ _ H)
    as (Hc & _ & Hd & _).
  split; [exact Hc | exact Hd].
Defined.

Lemma test_negative_num_samples_witness :
  test (F := Toy.framework) 0 tt 2 (-1) "samples"
       (initial_env Toy.fresh_files, Toy.session0)
    <> OK (initial_env Toy.fresh_files, Toy.session0).
Proof.
  apply (test_negative_num_samples (F := Toy.framework)). reflexivity.
Defined.

(** ** The learning rate during training *)

Lemma ratio_nonneg (g w : Z) : 0 <= g -> 0 < w -> (0 <= inject_Z g / inject_Z w)%Q.
Proof.
  intros Hg Hw. destruct w as [|p|p]; try lia.
  unfold Qle, Qdiv, Qmult, Qinv, inject_Z. simpl. lia.
Qed.

Lemma lr_lambda_range (w g : Z) (m : Q) :
  0 < w -> 0 <= g -> lr_lambda w g = OK m -> (0 <= m <= 1)%Q.
Proof.
  intros Hw Hg H. rewrite (lr_lambda_ramp w g Hw) in H. injection H as <-.
  destruct (Z.ltb_spec g w) as [Hlt|Hge].
  - split; [now apply ratio_nonneg|].
    apply Qlt_le_weak. now apply ratio_lt_1.
  - split; [discriminate | apply Qle_refl].
Qed.

Lemma scheduler_step_range (sc : LambdaLR) (g : Z) (rate : Q) :
  0 < sched_warm_up sc -> (0 <= base_lr sc)%Q -> 0 <= g ->
  scheduler_step sc g = OK rate -> (0 <= rate <= base_lr sc)%Q.
Proof.
  intros Hw Hb Hg H. unfold scheduler_step in H. inv_bind H as m Hm.
  injection H as <-. apply (lr_lambda_range _ _ _ Hw Hg) in Hm as [H0 H1].
  split; [now apply Qmult_le_0_compat|].
  rewrite <- (Qmult_1_r (base_lr sc)) at 2.
  rewrite !(Qmult_comm (base_lr sc)). now apply Qmult_le_compat_r.
Qed.

Lemma scheduler_step_after_warm_up (sc : LambdaLR) (g : Z) (rate : Q) :
  0 < sched_warm_up sc -> sched_warm_up sc <= g ->
  scheduler_step sc g = OK rate -> (rate == base_lr sc)%Q.
Proof.
  intros Hw Hg H. unfold scheduler_step in H.
  rewrite (lr_lambda_ramp _ g Hw) in H.
  destruct (Z.ltb_spec g (sched_warm_up sc)) as [Hlt|_]; [lia|].
  simpl in H. injection H as <-. apply Qmult_1_r.
Qed.

Lemma scheduler_step_zero (sc : LambdaLR) (rate : Q) :
  scheduler_step sc 0 = OK rate -> (rate == 0)%Q.
Proof.
  unfold scheduler_step, lr_lambda. intros H.
  destruct (Z.eqb_spec (sched_warm_up sc) 0) as [|Hw]; [discriminate H|].
  simpl in H. injection H as <-.
  assert (E : (inject_Z 0 / inject_Z (sched_warm_up sc) == 0)%Q)
    by (unfold Qeq, Qdiv, Qmult; simpl; lia).
  unfold py_min.
  destruct (Qltb (inject_Z 0 / inject_Z (sched_warm_up sc)) 1) eqn:B.
  - rewrite E. apply Qmult_0_r.
  - apply Qltb_ge in B. rewrite E in B. unfold Qle in B. simpl in B. lia.
Qed.

Section LearningRate.
Context {F : Framework}.

(** A training pass that returns leaves the files and [best_loss] alone and,
    for a positive batch size, advances [global_step] by exactly the number of
    training items: the batches of one pass add up to the training set. *)
Theorem train_advances_global_step (epoch : Z) (vae : Vae) (batch : nat)
    (sc : LambdaLR) (max_grad_norm : Q) (e e' : env) (s s' : session) :
  train epoch vae batch sc max_grad_norm (e, s) = OK (e', s') ->
  (0 < batch)%nat ->
  fs e' = fs e /\ best_loss e' = best_loss e /\
  global_step e' = global_step e + Z.of_nat (length trainset).
Proof.
  intros H Hb. apply train_inv in H as (H1 & H2 & H3).
  repeat split; [exact H1 | exact H2 | exact (H3 Hb)].
Qed.

Lemma train_inv_rate (P : env * session * AverageMeter -> Prop)
    (epoch : Z) (vae : Vae) (batch : nat) (sc : LambdaLR) (max_grad_norm : Q)
    (e e' : env) (s s' : session) :
  (forall e0 s0 m0 r, P (e0, s0, m0) ->
     P (e0, {| rng := r; net := net s0; opt := opt s0; opt_lr := opt_lr s0 |},
        meter_reset)) ->
  (forall st x st', P st -> train_step vae sc max_grad_norm st x = OK st' -> P st') ->
  P (e, s, meter_reset) ->
  train epoch vae batch sc max_grad_norm (e, s) = OK (e', s') ->
  exists m', P (e', s', m').
Proof.
  intros Hrng Hstep H0 H. unfold train in H.
  destruct (shuffle (rng s) trainset) as [data r].
  inv_bind H as st Hst. destruct st as [[e1 s1] m1]. injection H as <- <-.
  exists m1. unfold train_loop in Hst.
  apply (for_each_inv P _ _ (fun a x a' _ => Hstep a x a') _ _ (Hrng _ _ _ r H0) Hst).
Qed.

(** With a positive warmup length and a non-negative peak rate, a training
    pass that starts from a non-negative [global_step] and a learning rate in
    [0, lr] ends with a learning rate in [0, lr]: the rate never exceeds the
    peak rate. *)
Theorem train_learning_rate_bounds (epoch : Z) (vae : Vae) (batch : nat)
    (sc : LambdaLR) (max_grad_norm : Q) (e e' : env) (s s' : session) :
  train epoch vae batch sc max_grad_norm (e, s) = OK (e', s') ->
  0 < sched_warm_up sc -> (0 <= base_lr sc)%Q -> 0 <= global_step e ->
  (0 <= opt_lr s <= base_lr sc)%Q ->
  (0 <= opt_lr s' <= base_lr sc)%Q /\ 0 <= global_step e'.
Proof.
  intros H Hw Hb Hg Hl.
  destruct (train_inv_rate
              (fun st => 0 <= global_step (fst (fst st)) /\
                         (0 <= opt_lr (snd (fst st)) <= base_lr sc)%Q)
              _ _ _ _ _ _ _ _ _ (fun _ _ _ _ H => H)
              ltac:(intros [[e0 s0] m0] x [[e1 s1] m1] [G L] Hs;
                    apply train_step_inv in Hs as (_ & _ & Hg1 & Hr & _);
                    simpl in *; split;
                    [unfold size0 in Hg1; lia
                    |exact (scheduler_step_range _ _ _ Hw Hb G Hr)])
              (conj Hg Hl) H) as (m' & G' & L').
  split; [exact L' | exact G'].
Qed.

(** Once [global_step] has reached the local warmup length W = warm_up *
    batch_size, every training step sets the learning rate to the peak rate,
    and a training pass that starts there at the peak rate ends at it. *)
Theorem train_after_warm_up (vae : Vae) (sc : LambdaLR) (max_grad_norm : Q) :
  0 < sched_warm_up sc ->
  (forall e s m x e' s' m',
     sched_warm_up sc <= global_step e ->
     train_step vae sc max_grad_norm (e, s, m) x = OK (e', s', m') ->
     (opt_lr s' == base_lr sc)%Q) /\
  (forall epoch batch e s e' s',
     sched_warm_up sc <= global_step e -> (opt_lr s == base_lr sc)%Q ->
     train epoch vae batch sc max_grad_norm (e, s) = OK (e', s') ->
     (opt_lr s' == base_lr sc)%Q).
Proof.
  intros Hw. split.
  - intros e s m x e' s' m' Hg H.
    apply train_step_inv in H as (_ & _ & _ & Hr & _).
    exact (scheduler_step_after_warm_up _ _ _ Hw Hg Hr).
  - intros epoch batch e s e' s' Hg Hl H.
    destruct (train_inv_rate
                (fun st => sched_warm_up sc <= global_step (fst (fst st)) /\
                           (opt_lr (snd (fst st)) == base_lr sc)%Q)
                _ _ _ _ _ _ _ _ _ (fun _ _ _ _ H => H)
                ltac:(intros [[e0 s0] m0] x [[e1 s1] m1] [G L] Hs;
                      apply train_step_inv in Hs as (_ & _ & Hg1 & Hr & _);
                      simpl in *; split;
                      [unfold size0 in Hg1; lia
                      |exact (scheduler_step_after_warm_up _ _ _ Hw G Hr)])
                (conj Hg Hl) H) as (m' & _ & L').
    exact L'.
Qed.

(** Building the scheduler evaluates the multiplier at step 0, and the first
    training step of a run that starts at [global_step = 0] evaluates it at 0
    again: the learning rate is 0 for the first optimizer step of every run,
    and also for the second one of a run that does not resume. *)
Theorem first_steps_at_zero_rate (args : Args) (n : Net) (sc : LambdaLR)
    (optimizer : Opt) (rate : Q) :
  main_optim args n = OK (sc, optimizer, rate) ->
  (rate == 0)%Q /\
  (forall vae max_grad_norm e s m x e' s' m',
     global_step e = 0 ->
     train_step vae sc max_grad_norm (e, s, m) x = OK (e', s', m') ->
     opt_lr s' = rate).
Proof.
  unfold main_optim. intros H.
  destruct (Qltb (lr args) 0); [discriminate H|]. inv_bind H as rate0 Hr.
  injection H as <- _ <-. split; [exact (scheduler_step_zero _ _ Hr)|].
  intros vae max_grad_norm e s m x e' s' m' Hg H.
  apply train_step_inv in H as (_ & _ & _ & Hs & _).
  rewrite Hg in Hs. congruence.
Qed.

End LearningRate.

Lemma train_advances_global_step_witness :
  exists e' s',
    train (F := Toy.framework) 0 tt 2 Toy.sched 0
          (initial_env Toy.fresh_files, Toy.session0) = OK (e', s') /\
    global_step e' = 5.
Proof.
  destruct (train (F := Toy.framework) 0 tt 2 Toy.sched 0
                  (initial_env Toy.fresh_files, Toy.session0))
    as [[e' s']|err] eqn:H; [|vm_compute in H; discriminate H].
  exists e', s'. split; [reflexivity|].
  destruct (train_advances_global_step (F := Toy.framework) _ _ _ _ _ _ _ _ _ H)
    as (_ & _ & Hg); [lia | exact Hg].
Defined.

Lemma train_learning_rate_bounds_witness :
  exists e' s',
    train (F := Toy.framework) 0 tt 2 Toy.sched 0
          (initial_env Toy.fresh_files, Toy.session0) = OK (e', s') /\
    (0 <= opt_lr s' <= 1 # 1000)%Q.
Proof.
  destruct (train (F := Toy.framework) 0 tt 2 Toy.sched 0
                  (initial_env Toy.fresh_files, Toy.session0))
    as [[e' s']|err] eqn:H; [|vm_compute in H; discriminate H].
  exists e', s'. split; [reflexivity|].
  destruct (train_learning_rate_bounds (F := Toy.framework) _ _ _ _ _ _ _ _ _ H)
    as [Hl _]; [reflexivity | discriminate | discriminate
                | split; discriminate | exact Hl].
Defined.

Lemma train_after_warm_up_witness :
  exists e' s' m',
    train_step (F := Toy.framework) tt Toy.sched 0
      ({| fs := Toy.fresh_files; best_loss := 0; global_step := 6 |},
       Toy.session0, meter_reset) [1; 2] = OK (e', s', m') /\
    (opt_lr s' == 1 # 1000)%Q.
Proof.
  destruct (train_step (F := Toy.framework) tt Toy.sched 0
              ({| fs := Toy.fresh_files; best_loss := 0; global_step := 6 |},
               Toy.session0, meter_reset) [1; 2])
    as [[[e' s'] m']|err] eqn:H; [|vm_compute in H; discriminate H].
  exists e', s', m'. split; [reflexivity|].
  refine (proj1 (train_after_warm_up (F := Toy.framework) tt Toy.sched 0 _)
                _ _ _ _ _ _ _ _ H); [reflexivity | simpl; lia].
Defined.

Lemma first_steps_at_zero_rate_witness :
  exists sc optimizer rate,
    main_optim (F := Toy.framework) (scale_batch_size Toy.args) 0
      = OK (sc, optimizer, rate) /\ (rate == 0)%Q.
Proof.
  destruct (main_optim (F := Toy.framework) (scale_batch_size Toy.args) 0)
    as [[[sc optimizer] rate]|err] eqn:H; [|vm_compute in H; discriminate H].
  exists sc, optimizer, rate. split; [reflexivity|].
  exact (proj1 (first_steps_at_zero_rate (F := Toy.framework) _ _ _ _ _ H)).
Defined.

(** ** Whole runs *)

Lemma epoch_range_length (start n : Z) :
  length (epoch_range start n) = Z.to_nat n.
Proof. unfold epoch_range. now rewrite length_map, length_seq. Qed.

Lemma update_best_le (avg_loss best : Q) :
  (update_best avg_loss best <= best)%Q /\ (update_best avg_loss best <= avg_loss)%Q.
Proof.
  unfold update_best, improved. destruct (Qltb avg_loss best) eqn:E.
  - apply Qltb_lt in E. split; [now apply Qlt_le_weak | apply Qle_refl].
  - apply Qltb_ge in E. split; [apply Qle_refl | exact E].
Qed.

Section Runs.
Context {F : Framework}.

Lemma run_epoch_counters (args : Args) (vae : Vae) (sc : LambdaLR)
    (st st' : env * session) (epoch : Z) :
  run_epoch args vae sc st epoch = OK st' ->
  0 < batch_size args ->
  global_step (fst st') = global_step (fst st) + Z.of_nat (length trainset) /\
  (best_loss (fst st') <= best_loss (fst st))%Q.
Proof.
  intros H Hb. apply run_epoch_inv in H as ([e1 s1] & Htrain & Htest).
  destruct st as [e s], st' as [e' s'].
  apply train_inv in Htrain as (_ & Hbest & Hg).
  apply test_inv in Htest.
  destruct Htest as (x & f1 & f2 & f3 & nrow & f4 & f5 & Ht).
  destruct Ht as (_ & _ & _ & _ & _ & _ & _ & _ & Hb' & Hg' & _).
  simpl. split.
  - rewrite Hg', Hg; [reflexivity | lia].
  - rewrite Hb', <- Hbest. apply update_best_le.
Qed.

Lemma run_epochs_counters (args : Args) (vae : Vae) (sc : LambdaLR)
    (epochs : list Z) (st st' : env * session) :
  run_epochs args vae sc epochs st = OK st' ->
  0 < batch_size args ->
  global_step (fst st') =
    global_step (fst st) + Z.of_nat (length epochs) * Z.of_nat (length trainset) /\
  (best_loss (fst st') <= best_loss (fst st))%Q.
Proof.
  unfold run_epochs. intros H Hb. revert st H.
  induction epochs as [|epoch epochs IH]; intros st H.
  - injection H as <-. split; [simpl; lia | apply Qle_refl].
  - change (for_each (epoch :: epochs) (run_epoch args vae sc) st)
      with (do st1 <- run_epoch args vae sc st epoch;
            for_each epochs (run_epoch args vae sc) st1) in H.
    inv_bind H as st1 H1.
    apply (run_epoch_counters _ _ _ _ _ _) in H1 as [G1 B1]; [|exact Hb].
    apply IH in H as [G2 B2]. split.
    + rewrite G2, G1. simpl length. lia.
    + eapply Qle_trans; [exact B2 | exact B1].
Qed.

(** The three files an epoch of the range has left at the end of the loop. *)
Lemma run_epochs_outputs (args : Args) (vae : Vae) (sc : LambdaLR)
    (start n epoch : Z) (st st' : env * session) :
  run_epochs args vae sc (epoch_range start n) st = OK st' ->
  start <= epoch < start + n ->
  let batch := Z.to_nat (batch_size args) in
  exists st0 st1 x,
    let loop := test_loop (net (snd st1)) vae (batches batch testset)
                          (rng (snd st1)) in
    run_epochs args vae sc (epoch_range start (epoch - start)) st = OK st0 /\
    train epoch vae batch sc (max_grad_norm args) st0 = OK st1 /\
    last (batches batch testset) = Some x /\
    fs (fst st') !! ckpt_path epoch =
      Some (CkptFile {| ck_net := net (snd st1); ck_test_loss := avg (fst loop);
                        ck_epoch := epoch |}) /\
    fs (fst st') !! reconstruction_path epoch =
      Some (ImageFile (make_grid (reconstruct (net (snd st1)) x)
                                 (Z.sqrt (num_samples args)))) /\
    fs (fst st') !! samples_path (save_dir args) epoch =
      Some (ImageFile
              (make_grid (fst (sample (net (snd st1)) vae (num_samples args)
                                      (snd loop)))
                         (Z.sqrt (num_samples args)))).
Proof.
  intros Hrun Hin batch.
  destruct (epoch_range_split start n epoch Hin) as (post & Hsplit & Hpost).
  unfold run_epochs in Hrun. rewrite Hsplit, for_each_app in Hrun.
  inv_bind Hrun as st0 Hpre. simpl in Hrun. inv_bind Hrun as st2 Hepoch.
  apply run_epoch_inv in Hepoch as (st1 & Htrain & Htest).
  destruct st1 as [e1 s1], st2 as [e2 s2].
  pose proof (test_files _ _ _ _ _ _ _ _ _ Htest) as [Hck _].
  destruct (test_images _ _ _ _ _ _ _ _ _ Htest) as (x & Hx & _ & Hrec & Hsam).
  exists st0, (e1, s1), x. simpl.
  split; [exact Hpre|]. split; [exact Htrain|]. split; [exact Hx|].
  assert (Hlater : forall later, In later post -> later <> epoch)
    by (intros later Hl; apply Hpost in Hl; lia).
  split; [|split].
  - apply (run_epochs_files args vae sc post (e2, s2) st' _ _ Hrun);
      [discriminate| |exact Hck].
    intros later Hl.
    destruct (ckpt_path_not_image (save_dir args) epoch later) as [N1 N2].
    repeat split; [|exact N1|exact N2].
    intros E. apply ckpt_path_inj in E. exact (Hlater _ Hl (eq_sym E)).
  - apply (run_epochs_files args vae sc post (e2, s2) st' _ _ Hrun);
      [discriminate| |exact Hrec].
    intros later Hl. repeat split.
    + intros E. symmetry in E.
      exact (proj1 (ckpt_path_not_image (save_dir args) later epoch) E).
    + intros E. apply reconstruction_path_inj in E. exact (Hlater _ Hl (eq_sym E)).
    + apply reconstruction_not_samples.
  - apply (run_epochs_files args vae sc post (e2, s2) st' _ _ Hrun);
      [discriminate| |exact Hsam].
    intros later Hl. repeat split.
    + intros E. symmetry in E.
      exact (proj2 (ckpt_path_not_image (save_dir args) later epoch) E).
    + intros E. symmetry in E.
      exact (reconstruction_not_samples (save_dir args) later epoch E).
    + intros E. apply samples_path_inj in E. exact (Hlater _ Hl (eq_sym E)).
Qed.

Lemma main_resume_fresh (a : Args) (e e1 : env) (n n1 : Net) (start_epoch : Z) :
  resume a = false ->
  main_resume a e n = OK (e1, n1, start_epoch) ->
  e1 = e /\ n1 = n /\ start_epoch = 0.
Proof.
  unfold main_resume. intros -> H. injection H as <- <- <-. now repeat split.
Qed.

Lemma main_resume_resumed (a : Args) (e e1 : env) (n n1 : Net) (start_epoch : Z) :
  resume a = true ->
  main_resume a e n = OK (e1, n1, start_epoch) ->
  isdir (fs e) "save" = true /\
  exists c,
    fs e !! resume_path = Some (CkptFile c) /\
    n1 = ck_net c /\ start_epoch = ck_epoch c /\
    e1 = {| fs := fs e; best_loss := ck_test_loss c;
            global_step := ck_epoch c * Z.of_nat (length trainset) |}.
Proof.
  unfold main_resume. intros -> H.
  destruct (isdir (fs e) "save"); [|discriminate H]. split; [reflexivity|].
  inv_bind H as nd Hload. inv_bind H as c Hc. injection H as <- <- <-.
  exists c. unfold torch_load in Hload.
  destruct (fs e !! resume_path) as [[|c'| |]|];
    try discriminate Hload; injection Hload as <-; try discriminate Hc.
  injection Hc as <-. now repeat split.
Qed.

End Runs.

(** ** Runs of [main] *)

Section Main.
Context {F : Framework}.

(** A run of [main] without [--resume] that returns has advanced
    [global_step] by the number of epochs times the number of training items
    (by nothing when [--num_epochs] is zero or negative). *)
Theorem main_fresh_global_step (args : Args) (e e' : env) (s' : session) :
  main args e = OK (e', s') ->
  resume args = false ->
  global_step e' =
    global_step e + Z.max 0 (num_epochs args) * Z.of_nat (length trainset).
Proof.
  intros H Hres. apply main_inv in H.
  destruct H as (vae & n & r & e1 & n1 & start & sc & o & rate & Hb & Hr & _ & Hrun).
  apply main_build_inv in Hb as (_ & Hpos & _).
  apply main_resume_fresh in Hr as (-> & _ & _); [|exact Hres].
  apply run_epochs_counters in Hrun as [Hg _]; [|exact Hpos].
  simpl in Hg. rewrite Hg, epoch_range_length.
  change (num_epochs (scale_batch_size args)) with (num_epochs args). lia.
Qed.

(** [best_loss] starts at 0 and an evaluation pass only ever lowers it, so a
    run without [--resume] that returns ends with [best_loss <= 0]. *)
Theorem main_fresh_best_loss (args : Args) (files : gmap string node)
    (e' : env) (s' : session) :
  main args (initial_env files) = OK (e', s') ->
  resume args = false ->
  (best_loss e' <= 0)%Q.
Proof.
  intros H Hres. apply main_inv in H.
  destruct H as (vae & n & r & e1 & n1 & start & sc & o & rate & Hb & Hr & _ & Hrun).
  apply main_build_inv in Hb as (_ & Hpos & _).
  apply main_resume_fresh in Hr as (-> & _ & _); [|exact Hres].
  apply run_epochs_counters in Hrun as [_ Hbest]; [|exact Hpos]. exact Hbest.
Qed.


(** The epoch loop starts at the epoch index stored in the checkpoint, so a
    resumed run of at least one epoch trains epoch E again, from the restored
    parameters, and writes the checkpoint file of epoch E anew. *)
Theorem main_resumed_rewrites_checkpoint (args : Args) (e e' : env)
    (s' : session) :
  main args e = OK (e', s') ->
  resume args = true ->
  0 < num_epochs args ->
  exists c vae sc st0 st1 loss,
    fs e !! resume_path = Some (CkptFile c) /\
    fst st0 = {| fs := fs e; best_loss := ck_test_loss c;
                 global_step := ck_epoch c * Z.of_nat (length trainset) |} /\
    net (snd st0) = ck_net c /\
    train (ck_epoch c) vae (Z.to_nat (batch_size (scale_batch_size args)))
          sc (max_grad_norm args) st0 = OK st1 /\
    fs e' !! ckpt_path (ck_epoch c) =
      Some (CkptFile {| ck_net := net (snd st1); ck_test_loss := loss;
                        ck_epoch := ck_epoch c |}).
Proof.
  intros H Hres Hn. apply main_inv in H.
  destruct H as (vae & n & r & e1 & n1 & start & sc & o & rate & Hb & Hr & _ & Hrun).
  apply main_resume_resumed in Hr as (_ & c & Hc & -> & -> & ->); [|exact Hres].
  destruct (run_epochs_outputs _ _ _ _ _ (ck_epoch c) _ _ Hrun)
    as (st0 & st1 & x & Hpre & Htrain & _ & Hck & _).
  { change (num_epochs (scale_batch_size args)) with (num_epochs args). lia. }
  rewrite Z.sub_diag in Hpre. injection Hpre as <-.
  exists c, vae, sc,
    ({| fs := fs e; best_loss := ck_test_loss c;
        global_step := ck_epoch c * Z.of_nat (length trainset) |},
     {| rng := r; net := ck_net c; opt := o; opt_lr := rate |}), st1.
  eexists.
  split; [exact Hc|]. split; [reflexivity|]. split; [reflexivity|].
  split; [exact Htrain | exact Hck].
Qed.

(** Once the networks are built and the resume block is through, [main]
    builds the optimizer and then the scheduler: a negative [--lr] makes
    [optim.Adam] raise [ValueError]; otherwise [--warm_up 0] makes the local
    warmup length 0 and building the scheduler divides by it, so [main]
    raises [ZeroDivisionError] before the first epoch. *)
Theorem main_zero_warm_up (args a' : Args) (e e1 : env) (vae : Vae)
    (n n1 : Net) (r : Rng) (start_epoch : Z) :
  main_build args e = OK (a', vae, n, r) ->
  main_resume a' e n = OK (e1, n1, start_epoch) ->
  ((lr args < 0)%Q ->
   main args e = Raise (ValueError "Invalid learning rate")) /\
  ((0 <= lr args)%Q -> warm_up args = 0 ->
   main args e = Raise ZeroDivisionError).
Proof.
  intros Hb Hr.
  assert (Hmain : main args e =
                  (do (sc, optimizer, rate) <- main_optim a' n1;
                   run_epochs a' vae sc (epoch_range start_epoch (num_epochs a'))
                     (e1, {| rng := r; net := n1; opt := optimizer;
                             opt_lr := rate |}))).
  { unfold main. rewrite Hb. simpl. rewrite Hr. reflexivity. }
  apply main_build_inv in Hb as (-> & _). rewrite Hmain. unfold main_optim.
  change (lr (scale_batch_size args)) with (lr args).
  change (warm_up (scale_batch_size args)) with (warm_up args).
  split.
  - intros Hl. apply Qltb_lt in Hl. rewrite Hl. reflexivity.
  - intros Hl Hw. apply Qltb_ge in Hl. rewrite Hl, Hw. reflexivity.
Qed.

(** Nothing checks the sign of [--warm_up]: with a negative value and a
    positive batch size the multiplier is s / W with W < 0, which is never
    positive, for every s >= 0. *)
Theorem negative_warm_up_rate (a : Args) (s : Z) :
  warm_up a < 0 -> 0 < batch_size a -> 0 <= s ->
  exists m, schedule a s = OK m /\
            m = (inject_Z s / inject_Z (local_warm_up a))%Q /\ (m <= 0)%Q.
Proof.
  intros Hw Hb Hs. unfold schedule.
  assert (HW : local_warm_up a < 0) by (rewrite local_warm_up_eq; nia).
  assert (Hle : (inject_Z s / inject_Z (local_warm_up a) <= 0)%Q).
  { destruct (local_warm_up a) as [|p|p]; try lia.
    unfold Qle, Qdiv, Qmult, Qinv, inject_Z. simpl. lia. }
  unfold lr_lambda. destruct (Z.eqb_spec (local_warm_up a) 0); [lia|].
  eexists. split; [reflexivity|]. unfold py_min.
  destruct (Qltb (inject_Z s / inject_Z (local_warm_up a)) 1) eqn:B.
  - split; [reflexivity | exact Hle].
  - apply Qltb_ge in B. exfalso.
    pose proof (Qle_trans _ _ _ B Hle) as C. unfold Qle in C. simpl in C. lia.
Qed.

(** The failures that come before the resume block, in the order of the
    script: a seed outside 0 .. 2**32 - 1 makes [np.random.seed] raise
    [ValueError]; then a negative [--num_workers] and then a batch size that
    is not positive after scaling make the data loader raise [ValueError];
    then a missing VAE weight file makes [torch.load] raise
    [FileNotFoundError]. *)
Theorem main_startup_errors (args : Args) (e : env) :
  let b := batch_size args * Z.max 1 (Z.of_nat (length (gpu_ids args))) in
  (seed args < 0 \/ 2 ^ 32 <= seed args ->
   main args e = Raise (ValueError "Seed must be between 0 and 2**32 - 1")) /\
  (0 <= seed args < 2 ^ 32 ->
   (num_workers args < 0 ->
    main args e = Raise (ValueError "num_workers option should be non-negative")) /\
   (0 <= num_workers args -> b <= 0 ->
    main args e =
      Raise (ValueError "batch_size should be a positive integer value")) /\
   (0 <= num_workers args -> 0 < b -> fs e !! vae_model_path args = None ->
    main args e = Raise (FileNotFoundError (vae_model_path args)))).
Proof.
  intros b. unfold main, main_build.
  change (batch_size (scale_batch_size args)) with b.
  change (vae_model_path (scale_batch_size args)) with (vae_model_path args).
  change (seed (scale_batch_size args)) with (seed args).
  change (num_workers (scale_batch_size args)) with (num_workers args).
  destruct (Z.ltb_spec (seed args) 0) as [S1|S1];
    destruct (Z.leb_spec (2 ^ 32) (seed args)) as [S2|S2]; simpl;
    (split; [intros HS; try reflexivity; lia | intros HS; try lia]).
  destruct (Z.ltb_spec (num_workers args) 0) as [W1|W1];
    destruct (Z.leb_spec b 0) as [B1|B1]; simpl;
    (split; [intros HW; try reflexivity; lia|]);
    (split; [intros HW HB; try reflexivity; lia|]);
    intros HW HB Hv; try lia.
  unfold torch_load. rewrite Hv. reflexivity.
Qed.

(** With [--resume] and a [save] directory, a missing [save/best.pth.tar]
    makes [main] raise [FileNotFoundError], and VAE weights stored there make
    it raise [KeyError] on the key [net]. *)
Theorem resume_missing_checkpoint (args a' : Args) (e : env) (vae : Vae)
    (n : Net) (r : Rng) :
  main_build args e = OK (a', vae, n, r) ->
  resume args = true ->
  isdir (fs e) "save" = true ->
  (fs e !! resume_path = None ->
   main args e = Raise (FileNotFoundError "save/best.pth.tar")) /\
  (forall v, fs e !! resume_path = Some (VaeFile v) ->
   main args e = Raise (KeyError "net")).
Proof.
  intros Hb Hres Hdir. pose proof (main_build_inv _ _ _ _ _ _ Hb) as (Ha & _).
  split; [intros Hf | intros v Hf]; unfold main; rewrite Hb; simpl;
    unfold main_resume, torch_load; subst a';
    change (resume (scale_batch_size args)) with (resume args);
    rewrite Hres, Hdir, Hf; reflexivity.
Qed.

(** A run of [main] that returns has removed no path and turned no directory
    into a file. *)
Theorem main_never_removes (args : Args) (e e' : env) (s' : session)
    (q : string) :
  main args e = OK (e', s') ->
  (is_Some (fs e !! q) -> is_Some (fs e' !! q)) /\
  (isdir (fs e) q = true -> isdir (fs e') q = true).
Proof.
  intros H. apply main_inv in H.
  destruct H as (vae & n & r & e1 & n1 & start & sc & o & rate & _ & Hr & _ & Hrun).
  apply main_resume_fs in Hr.
  apply (run_epochs_keeps _ _ _ _ _ _ q) in Hrun as [Hd Hp].
  simpl in Hd, Hp. rewrite Hr in Hd, Hp. rewrite !isdir_true. now split.
Qed.

End Main.

(** ** Outputs of a run and resuming from them *)

Section Outputs2.
Context {F : Framework}.

(** In a run of the epoch loop that returns, the reconstruction grid and the
    sample grid of every epoch of the range are still on disk at the end,
    with the pixels computed from the parameters after that epoch's training
    pass: no later epoch's checkpoint or image replaces them, for any
    [--save_dir]. *)
Theorem run_keeps_all_images (args : Args) (vae : Vae) (sc : LambdaLR)
    (start n epoch : Z) (st st' : env * session) :
  run_epochs args vae sc (epoch_range start n) st = OK st' ->
  start <= epoch < start + n ->
  let batch := Z.to_nat (batch_size args) in
  exists st0 st1 x,
    let loop := test_loop (net (snd st1)) vae (batches batch testset)
                          (rng (snd st1)) in
    run_epochs args vae sc (epoch_range start (epoch - start)) st = OK st0 /\
    train epoch vae batch sc (max_grad_norm args) st0 = OK st1 /\
    last (batches batch testset) = Some x /\
    fs (fst st') !! reconstruction_path epoch =
      Some (ImageFile (make_grid (reconstruct (net (snd st1)) x)
                                 (Z.sqrt (num_samples args)))) /\
    fs (fst st') !! samples_path (save_dir args) epoch =
      Some (ImageFile
              (make_grid (fst (sample (net (snd st1)) vae (num_samples args)
                                      (snd loop)))
                         (Z.sqrt (num_samples args)))).
Proof.
  intros Hrun Hin batch.
  destruct (run_epochs_outputs _ _ _ _ _ _ _ _ Hrun Hin)
    as (st0 & st1 & x & H1 & H2 & H3 & _ & H5 & H6).
  exists st0, st1, x. repeat split; assumption.
Qed.

(** Saving and resuming round-trip: if the checkpoint file an evaluation
    pass wrote for an epoch is what is found at [save/best.pth.tar], the
    resume block restores the parameters that were evaluated, takes that
    epoch's average loss as [best_loss] and that epoch's index as the start
    epoch. *)
Theorem checkpoint_round_trip (epoch : Z) (vae : Vae) (batch : nat)
    (num_samples : Z) (save_dir : string) (e e' : env) (s s' : session)
    (a : Args) (e2 : env) (n2 : Net) :
  test epoch vae batch num_samples save_dir (e, s) = OK (e', s') ->
  resume a = true ->
  isdir (fs e2) "save" = true ->
  fs e2 !! resume_path = fs e' !! ckpt_path epoch ->
  main_resume a e2 n2 =
    OK ({| fs := fs e2;
           best_loss :=
             avg (fst (test_loop (net s) vae (batches batch testset) (rng s)));
           global_step := epoch * Z.of_nat (length trainset) |},
        net s, epoch).
Proof.
  intros H Hres Hdir Hfile. apply test_files in H as [Hck _].
  rewrite Hck in Hfile. unfold main_resume, torch_load.
  rewrite Hres, Hdir, Hfile. reflexivity.
Qed.

(** In a run of the epoch loop from epoch 0, the checkpoint of epoch E is
    written when [global_step] has advanced by (E + 1) times the number of
    training items; resuming from that file restores the parameters of that
    moment but sets [global_step] to E times that number and starts at epoch
    E again. *)
Theorem resume_rewinds_global_step (args : Args) (vae : Vae) (sc : LambdaLR)
    (n E : Z) (st st' : env * session) :
  run_epochs args vae sc (epoch_range 0 n) st = OK st' ->
  0 < batch_size args ->
  0 <= E < n ->
  exists st0 st1 loss,
    run_epochs args vae sc (epoch_range 0 E) st = OK st0 /\
    train E vae (Z.to_nat (batch_size args)) sc (max_grad_norm args) st0
      = OK st1 /\
    global_step (fst st1) =
      global_step (fst st) + (E + 1) * Z.of_nat (length trainset) /\
    fs (fst st') !! ckpt_path E =
      Some (CkptFile {| ck_net := net (snd st1); ck_test_loss := loss;
                        ck_epoch := E |}) /\
    (forall a e2 n2,
       resume a = true -> isdir (fs e2) "save" = true ->
       fs e2 !! resume_path = fs (fst st') !! ckpt_path E ->
       main_resume a e2 n2 =
         OK ({| fs := fs e2; best_loss := loss;
                global_step := E * Z.of_nat (length trainset) |},
             net (snd st1), E)).
Proof.
  intros Hrun Hb HE.
  destruct (run_epochs_outputs _ _ _ _ _ E _ _ Hrun)
    as (st0 & st1 & x & Hpre & Htrain & _ & Hck & _); [lia|].
  rewrite Z.sub_0_r in Hpre.
  exists st0, st1. eexists.
  split; [exact Hpre|]. split; [exact Htrain|]. split; [|split; [exact Hck|]].
  - apply run_epochs_counters in Hpre as [Hg _]; [|exact Hb].
    rewrite epoch_range_length in Hg.
    destruct st0 as [e0 s0], st1 as [e1 s1].
    apply train_inv in Htrain as (_ & _ & Hg1). simpl in *.
    rewrite Hg1, Hg; lia.
  - intros a e2 n2 Hres Hdir Hfile. rewrite Hck in Hfile.
    unfold main_resume, torch_load. rewrite Hres, Hdir, Hfile. reflexivity.
Qed.

End Outputs2.

Lemma run_keeps_all_images_witness :
  exists st',
    run_epochs (F := Toy.framework) Toy.args tt Toy.sched (epoch_range 0 2)
               (initial_env Toy.fresh_files, Toy.session0) = OK st' /\
    fs (fst st') !! "samples/reconstruction_epoch_0.png" = Some (ImageFile []) /\
    fs (fst st') !! "samples/epoch_0.png" = Some (ImageFile []).
Proof.
  destruct (run_epochs (F := Toy.framework) Toy.args tt Toy.sched
                       (epoch_range 0 2)
                       (initial_env Toy.fresh_files, Toy.session0))
    as [st'|err] eqn:H; [|vm_compute in H; discriminate H].
  destruct (run_keeps_all_images (F := Toy.framework) _ _ _ 0 2 0 _ _ H)
    as (st0 & st1 & x & _ & _ & _ & Hr & Hs); [lia|].
  exists st'. split; [reflexivity|]. split; [exact Hr | exact Hs].
Defined.

Lemma checkpoint_round_trip_witness :
  exists e' s',
    test (F := Toy.framework) 7 tt 2 4 "samples"
         (initial_env Toy.fresh_files, Toy.session0) = OK (e', s') /\
    main_resume (F := Toy.framework) Toy.resume_args
      {| fs := <[ "save/best.pth.tar" :=
                    @CkptFile Toy.framework
                      (@Build_checkpoint Toy.framework 0 (9 # 3) 7) ]>
                 ToyEdge.empty_save_files;
         best_loss := 0; global_step := 0 |} 0
    = OK ({| fs := <[ "save/best.pth.tar" :=
                        @CkptFile Toy.framework
                          (@Build_checkpoint Toy.framework 0 (9 # 3) 7) ]>
                     ToyEdge.empty_save_files;
             best_loss := 9 # 3; global_step := 35 |}, 0, 7).
Proof.
  destruct (test (F := Toy.framework) 7 tt 2 4 "samples"
                 (initial_env Toy.fresh_files, Toy.session0))
    as [[e' s']|err] eqn:H; [|vm_compute in H; discriminate H].
  exists e', s'. split; [reflexivity|].
  refine (checkpoint_round_trip (F := Toy.framework) _ _ _ _ _ _ _ _ _
            Toy.resume_args _ 0 H _ _ _); [reflexivity | reflexivity |].
  vm_compute in H. injection H as <- _. vm_compute. reflexivity.
Defined.

Lemma resume_rewinds_global_step_witness :
  exists st' st1 : @env Toy.framework * @session Toy.framework,
    run_epochs (F := Toy.framework) Toy.args tt Toy.sched (epoch_range 0 2)
               (initial_env Toy.fresh_files, Toy.session0) = OK st' /\
    global_step (fst st1) = 10.
Proof.
  destruct (run_epochs (F := Toy.framework) Toy.args tt Toy.sched
                       (epoch_range 0 2)
                       (initial_env Toy.fresh_files, Toy.session0))
    as [st'|err] eqn:H; [|vm_compute in H; discriminate H].
  destruct (resume_rewinds_global_step (F := Toy.framework) _ _ _ 2 1 _ _ H)
    as (st0 & st1 & loss & _ & _ & Hg & _); [reflexivity | lia |].
  exists st', st1. split; [reflexivity | exact Hg].
Defined.

Lemma main_fresh_global_step_witness :
  exists e' s',
    main (F := Toy.framework) Toy.args (initial_env Toy.fresh_files)
      = OK (e', s') /\ global_step e' = 10.
Proof.
  destruct (main (F := Toy.framework) Toy.args (initial_env Toy.fresh_files))
    as [[e' s']|err] eqn:H; [|vm_compute in H; discriminate H].
  exists e', s'. split; [reflexivity|].
  exact (main_fresh_global_step (F := Toy.framework) _ _ _ _ H eq_refl).
Defined.

Lemma main_fresh_best_loss_witness :
  exists e' s',
    main (F := Toy.framework) Toy.args (initial_env Toy.fresh_files)
      = OK (e', s') /\ (best_loss e' <= 0)%Q.
Proof.
  destruct (main (F := Toy.framework) Toy.args (initial_env Toy.fresh_files))
    as [[e' s']|err] eqn:H; [|vm_compute in H; discriminate H].
  exists e', s'. split; [reflexivity|].
  exact (main_fresh_best_loss (F := Toy.framework) _ _ _ _ H eq_refl).
Defined.


Lemma main_resumed_rewrites_checkpoint_witness :
  exists e' s' c',
    main (F := Toy.framework) Toy.resume_args (initial_env Toy.resume_files)
      = OK (e', s') /\
    fs e' !! ckpt_path 7 = Some (CkptFile c') /\ ck_epoch c' = 7.
Proof.
  destruct (main (F := Toy.framework) Toy.resume_args
                 (initial_env Toy.resume_files))
    as [[e' s']|err] eqn:H; [|vm_compute in H; discriminate H].
  destruct (main_resumed_rewrites_checkpoint (F := Toy.framework) _ _ _ _ H
              eq_refl eq_refl)
    as (c & vae & sc & st0 & st1 & loss & Hc & _ & _ & _ & Hck).
  vm_compute in Hc. injection Hc as <-.
  exists e', s'. eexists. split; [reflexivity|]. split; [exact Hck | reflexivity].
Defined.

Lemma main_zero_warm_up_witness :
  main (F := Toy.framework) ToyEdge.zero_warm_up (initial_env Toy.fresh_files)
    = Raise ZeroDivisionError.
Proof.
  refine (proj2 (main_zero_warm_up (F := Toy.framework) ToyEdge.zero_warm_up
                   (scale_batch_size ToyEdge.zero_warm_up)
                   (initial_env Toy.fresh_files) (initial_env Toy.fresh_files)
                   tt 0 0 1 0 _ _) _ _);
    [reflexivity | reflexivity | discriminate | reflexivity].
Defined.

Lemma negative_warm_up_rate_witness :
  exists m, schedule ToyEdge.negative_warm_up 4 = OK m /\ (m <= 0)%Q.
Proof.
  destruct (negative_warm_up_rate ToyEdge.negative_warm_up 4)
    as (m & Hm & _ & Hle); [reflexivity | reflexivity | simpl; lia |].
  exists m. split; [exact Hm | exact Hle].
Defined.

Lemma main_startup_errors_witness :
  main (F := Toy.framework) Toy.args (initial_env ∅)
    = Raise (FileNotFoundError "vae.pt").
Proof.
  refine (proj2 (proj2 (proj2 (main_startup_errors (F := Toy.framework)
                                 Toy.args (initial_env ∅)) _)) _ _ _);
    [simpl; lia | simpl; lia | reflexivity | reflexivity].
Defined.

Lemma resume_missing_checkpoint_witness :
  main (F := Toy.framework) Toy.resume_args
       (initial_env ToyEdge.empty_save_files)
    = Raise (FileNotFoundError "save/best.pth.tar").
Proof.
  apply (resume_missing_checkpoint (F := Toy.framework) Toy.resume_args
           (scale_batch_size Toy.resume_args)
           (initial_env ToyEdge.empty_save_files) tt 0 1); reflexivity.
Defined.

Lemma main_never_removes_witness :
  exists e' s',
    main (F := Toy.framework) Toy.args (initial_env Toy.fresh_files)
      = OK (e', s') /\ is_Some (fs e' !! "vae.pt").
Proof.
  destruct (main (F := Toy.framework) Toy.args (initial_env Toy.fresh_files))
    as [[e' s']|err] eqn:H; [|vm_compute in H; discriminate H].
  exists e', s'. split; [reflexivity|].
  apply (main_never_removes (F := Toy.framework) _ _ _ _ "vae.pt" H).
  vm_compute. eauto.
Defined.

(** ** The learning rate from one step to the next *)

Lemma ratio_le (s1 s2 w : Z) :
  0 < w -> s1 <= s2 -> (inject_Z s1 / inject_Z w <= inject_Z s2 / inject_Z w)%Q.
Proof.
  intros Hw Hs. destruct w as [|p|p]; try lia.
  unfold Qle, Qdiv, Qmult, Qinv, inject_Z. simpl. nia.
Qed.

Lemma lr_lambda_monotone (w s1 s2 : Z) (m1 m2 : Q) :
  0 < w -> s1 <= s2 ->
  lr_lambda w s1 = OK m1 -> lr_lambda w s2 = OK m2 -> (m1 <= m2)%Q.
Proof.
  intros Hw Hs H1 H2.
  rewrite (lr_lambda_ramp w s1 Hw) in H1. rewrite (lr_lambda_ramp w s2 Hw) in H2.
  injection H1 as <-. injection H2 as <-.
  destruct (Z.ltb_spec s1 w) as [L1|G1], (Z.ltb_spec s2 w) as [L2|G2].
  - now apply ratio_le.
  - apply Qlt_le_weak. now apply ratio_lt_1.
  - lia.
  - apply Qle_refl.
Qed.

Section Monotone.
Context {F : Framework}.

(** With a positive warmup length and a non-negative peak rate, the learning
    rate a training step sets is never below the one the step before it set:
    [global_step] only grows, and the multiplier grows with it. *)
Theorem learning_rate_never_decreases (vae : Vae) (sc : LambdaLR)
    (max_grad_norm : Q) (e e1 e2 : env) (s s1 s2 : session)
    (m m1 m2 : AverageMeter) (x y : list Image) :
  0 < sched_warm_up sc -> (0 <= base_lr sc)%Q ->
  train_step vae sc max_grad_norm (e, s, m) x = OK (e1, s1, m1) ->
  train_step vae sc max_grad_norm (e1, s1, m1) y = OK (e2, s2, m2) ->
  (opt_lr s1 <= opt_lr s2)%Q.
Proof.
  intros Hw Hb H1 H2.
  apply train_step_inv in H1 as (_ & _ & Hg & Hr1 & _).
  apply train_step_inv in H2 as (_ & _ & _ & Hr2 & _).
  unfold scheduler_step in Hr1, Hr2.
  inv_bind Hr1 as k1 Hk1. inv_bind Hr2 as k2 Hk2.
  injection Hr1 as <-. injection Hr2 as <-.
  assert (Hk : (k1 <= k2)%Q).
  { refine (lr_lambda_monotone _ _ _ _ _ Hw _ Hk1 Hk2).
    rewrite Hg. unfold size0. lia. }
  rewrite !(Qmult_comm (base_lr sc)). now apply Qmult_le_compat_r.
Qed.

End Monotone.

Lemma learning_rate_never_decreases_witness :
  exists e1 s1 m1 e2 s2 m2,
    train_step (F := Toy.framework) tt Toy.sched 0
      (initial_env Toy.fresh_files, Toy.session0, meter_reset) [1; 2]
      = OK (e1, s1, m1) /\
    train_step (F := Toy.framework) tt Toy.sched 0 (e1, s1, m1) [3; 4]
      = OK (e2, s2, m2) /\
    (opt_lr s1 <= opt_lr s2)%Q.
Proof.
  destruct (train_step (F := Toy.framework) tt Toy.sched 0
              (initial_env Toy.fresh_files, Toy.session0, meter_reset) [1; 2])
    as [[[e1 s1] m1]|err] eqn:H1; [|vm_compute in H1; discriminate H1].
  destruct (train_step (F := Toy.framework) tt Toy.sched 0 (e1, s1, m1) [3; 4])
    as [[[e2 s2] m2]|err] eqn:H2.
  - exists e1, s1, m1, e2, s2, m2. split; [reflexivity|]. split; [exact H2|].
    refine (learning_rate_never_decreases (F := Toy.framework) _ _ _ _ _ _ _ _ _
              _ _ _ _ _ _ _ H1 H2); [reflexivity | discriminate].
  - vm_compute in H1. injection H1 as <- <- <-. vm_compute in H2.
    discriminate H2.
Defined.
